(** * WhatsApp-to-MPesa Microstore API: a shallow embedding of [main.py]

    The request handlers of [src/main.py] and the Pydantic models of
    [src/schemas.py] are embedded as Rocq functions over an explicit
    document-store state.  Python's [float] is the kernel's binary64
    [float]; Python's [int] is [Z]; [str] is [string], holding the
    UTF-8 bytes of the text; an exception is a value of [exn], and a
    handler returns its outcome together with the state of the store it
    leaves behind, so that what was written before an exception was
    raised stays written.  The store keeps a journal of the writes it
    carried out, so that what a handler did on the way to its final
    state can be told. *)

From Stdlib Require Import ZArith NArith List String Ascii Bool Lia Floats.
Import ListNotations.

Set Warnings "-inexact-float".

Local Open Scope string_scope.
Local Open Scope list_scope.
Local Open Scope Z_scope.

(** ** Strings *)

(** [str.lower()], exact on ASCII text: the letters A to Z are mapped,
    every other byte is kept.  (Python also maps the capital letters
    outside ASCII.) *)
Definition lower_ascii (c : ascii) : ascii :=
  let n := nat_of_ascii c in
  if (65 <=? n)%nat && (n <=? 90)%nat then ascii_of_nat (n + 32) else c.

Fixpoint lower (s : string) : string :=
  match s with
  | EmptyString => EmptyString
  | String c r => String (lower_ascii c) (lower r)
  end.

(** Truth value of an [Optional[str]]: [None] and the empty string are
    false. *)
Definition truthy (o : option string) : bool :=
  match o with
  | Some (String _ _) => true
  | Some EmptyString => false
  | None => false
  end.

(** [a or b] on [Optional[str]] operands. *)
Definition py_or (a b : option string) : option string :=
  if truthy a then a else b.

(** ** Numbers *)

(** BSON holds an [int] in at most eight bytes: the driver raises
    [OverflowError] when it is to encode any other. *)
Definition int64 (n : Z) : bool := (- 2 ^ 63 <=? n) && (n <? 2 ^ 63).

(** Conversion of a Python [int] to [float], as the mixed product
    [item.price * item.quantity] performs it: round to nearest, ties to
    even, and [OverflowError] when the result is not finite. *)
Definition float_of_int (n : Z) : option float :=
  match binary_normalize prec emax n 0 false with
  | S754_infinity _ => None
  | sf => Some (SF2Prim sf)
  end.

(** Nearest integer to [m / 2^k], ties to even. *)
Definition round_half_even_shr (m : Z) (k : Z) : Z :=
  let d := 2 ^ k in
  let q := m / d in
  let r := m mod d in
  match 2 * r ?= d with
  | Lt => q
  | Gt => q + 1
  | Eq => if Z.even q then q else q + 1
  end.

(** [round(x, 2)] on a float.  CPython prints the exact binary value of
    [x] correctly rounded to two decimal places and reads the decimal
    string back: [n] below is that decimal, counted in hundredths, and
    the result is the float nearest to [n / 100].  NaN, the infinities
    and the zeros round to themselves; a value that rounds to no
    hundredths keeps its sign.  With two digits the result is never out
    of range, so no [OverflowError] arises here. *)
Definition py_round2 (x : float) : float :=
  match Prim2SF x with
  | S754_finite s m e =>
      let n := if 0 <=? e then Z.pos m * 100 * 2 ^ e
               else round_half_even_shr (Z.pos m * 100) (- e) in
      match n with
      | Z.pos p => SF2Prim (SFdiv prec emax (S754_finite s p 0) (S754_finite false 100 0))
      | _ => SF2Prim (S754_zero s)
      end
  | _ => x
  end.

(** ** Object identifiers *)

(** The [bson.ObjectId] of a stored document is twelve bytes, here the
    number they spell; [str] renders it as 24 lowercase hexadecimal
    digits. *)
Definition ObjectId := N.

Definition hex_char (d : N) : ascii :=
  match d with
  | 0 => "0" | 1 => "1" | 2 => "2" | 3 => "3" | 4 => "4" | 5 => "5"
  | 6 => "6" | 7 => "7" | 8 => "8" | 9 => "9" | 10 => "a" | 11 => "b"
  | 12 => "c" | 13 => "d" | 14 => "e" | _ => "f"
  end%N%char.

Definition hex_val (c : ascii) : option N :=
  let n := N_of_ascii c in
  (if (48 <=? n) && (n <=? 57) then Some (n - 48)
   else if (97 <=? n) && (n <=? 102) then Some (n - 87)
   else if (65 <=? n) && (n <=? 70) then Some (n - 55)
   else None)%N.

Fixpoint hex_digits (w : nat) (n : N) (acc : string) : string :=
  match w with
  | O => acc
  | S w' => hex_digits w' (n / 16) (String (hex_char (n mod 16)) acc)
  end%N.

(** [str(oid)] *)
Definition str_of_oid (o : ObjectId) : string := hex_digits 24 o EmptyString.

(** White space as [bytes.fromhex] knows it: the space and the control
    characters 9 to 13. *)
Definition is_space (c : ascii) : bool :=
  let n := N_of_ascii c in
  ((n =? 32) || ((9 <=? n) && (n <=? 13)))%N.

(** [bytes.fromhex(s)]: pairs of hexadecimal digits of either case,
    with white space allowed before each pair and at the end; [None]
    stands for [ValueError]. *)
Fixpoint fromhex (s : string) : option (list N) :=
  match s with
  | EmptyString => Some []
  | String c r =>
      if is_space c then fromhex r
      else
        match hex_val c, r with
        | Some h, String c' r' =>
            match hex_val c', fromhex r' with
            | Some l, Some bs => Some ((16 * h + l)%N :: bs)
            | _, _ => None
            end
        | _, _ => None
        end
  end.

Definition N_of_bytes (bs : list N) : N :=
  fold_left (fun a b => (256 * a + b)%N) bs 0%N.

(** What an [ObjectId] built from a string holds: the twelve bytes of
    an identifier, or fewer bytes, which is what [bytes.fromhex] leaves
    of 24 characters that include white space.  No stored document has
    an identifier of fewer than twelve bytes. *)
Inductive Key :=
| Twelve (o : ObjectId)
| Fewer (bytes : list N).

(** [ObjectId(s)] on a [str]: a string of 24 characters is handed to
    [bytes.fromhex]; [None] stands for [bson.errors.InvalidId].  The
    length is counted in bytes here and in characters there; a string
    with a character outside ASCII is refused either way. *)
Definition ObjectId_of_str (s : string) : option Key :=
  if (String.length s =? 24)%nat
  then match fromhex s with
       | Some bs =>
           Some (if (List.length bs =? 12)%nat then Twelve (N_of_bytes bs)
                 else Fewer bs)
       | None => None
       end
  else None.

(** ** Schemas ([schemas.py]) *)

Module Seller.
Record t := mk {
  name : string;
  email : option string;
  phone : string;
  whatsapp_number : option string;
  password : option string }.
End Seller.

Module Store.
Record t := mk {
  owner_id : string;
  name : string;
  slug : string;
  description : option string;
  whatsapp_number : option string;
  mpesa_paybill : option string }.
End Store.

Module Product.
Record t := mk {
  store_slug : string;
  name : string;
  price : float;
  description : option string;
  image_url : option string;
  is_active : bool }.
End Product.

Module OrderItem.
Record t := mk {
  product_id : string;
  name : string;
  price : float;
  quantity : Z }.

(** [quantity: int = Field(..., ge=1)]; [price] carries no bound. *)
Definition valid (it : t) : bool := 1 <=? quantity it.
End OrderItem.

Module CustomerInfo.
Record t := mk {
  name : option string;
  phone : string }.
End CustomerInfo.

Module Order.
Record t := mk {
  store_slug : string;
  items : list OrderItem.t;
  total : float;
  customer : CustomerInfo.t;
  status : string;
  mpesa : list (string * string) }.

(** The only integers of an order document are the quantities of its
    items. *)
Definition encodable (o : t) : bool :=
  forallb (fun it => int64 (OrderItem.quantity it)) (items o).
End Order.

(** The document [checkout] writes to the [notification] collection.
    The f-string of the source is kept as the values it interpolates:
    [len(payload.items)], [round(total, 2)] and the customer's phone. *)
Module Notification.
Record text := mk_text {
  item_count : nat;
  amount : float;
  from_phone : string }.

Record t := mk {
  type : string;
  store_slug : string;
  order_id : string;
  message : text }.
End Notification.

(** ** Request and response models ([main.py])

    [SignupResponse], [StoreResponse] and [ProductResponse] hold one
    identifier each; the handlers that return them return that string. *)

Module SignupRequest.
Record t := mk {
  name : string;
  phone : string;
  email : option string;
  whatsapp_number : option string }.
End SignupRequest.

Module CreateStoreRequest.
Record t := mk {
  owner_id : string;
  name : string;
  slug : string;
  description : option string;
  whatsapp_number : option string }.
End CreateStoreRequest.

Module CreateProductRequest.
Record t := mk {
  store_slug : string;
  name : string;
  price : float;
  description : option string;
  image_url : option string }.
End CreateProductRequest.

Module CheckoutRequest.
Record t := mk {
  store_slug : string;
  items : list OrderItem.t;
  customer : CustomerInfo.t }.

(** What FastAPI checks before it calls the handler: every element of
    [items] is a valid [OrderItem].  The list itself may be empty. *)
Definition valid (p : t) : bool := forallb OrderItem.valid (items p).
End CheckoutRequest.

Module CheckoutResponse.
Record t := mk {
  order_id : string;
  status : string }.
End CheckoutResponse.

(** ** The document store *)

Definition Collection (A : Type) := list (ObjectId * A).

(** A document of one of the five collections. *)
Inductive Doc :=
| seller_doc (s : Seller.t)
| store_doc (s : Store.t)
| product_doc (p : Product.t)
| order_doc (o : Order.t)
| notification_doc (n : Notification.t).

(** A write the store has carried out: a document inserted under an
    identifier, or the document of an identifier replaced by another. *)
Inductive Write :=
| Inserted (id : ObjectId) (doc : Doc)
| Updated (id : ObjectId) (before after : Doc).

(** The five collections of [db], the next identifier the driver hands
    out, whether a write to the notification collection goes through,
    and the journal of the writes carried out so far, oldest first.  No
    handler reads the journal. *)
Record DB := mkDB {
  seller : Collection Seller.t;
  store : Collection Store.t;
  product : Collection Product.t;
  order : Collection Order.t;
  notification : Collection Notification.t;
  next_id : ObjectId;
  sink_up : bool;
  writes : list Write }.

Definition empty_db : DB := mkDB [] [] [] [] [] 0%N true [].

Inductive exn :=
| HTTPException (status_code : Z) (detail : string)
| RequestValidationError   (* FastAPI rejects the request body: 422 *)
| ValidationError          (* Pydantic rejects a model built in a handler *)
| OverflowError            (* int too large for a float, or for BSON *)
| InvalidId                (* bson.errors.InvalidId *)
| PyMongoError.            (* a write to the store fails *)

Inductive Result (A : Type) :=
| Ok (a : A)
| Raise (e : exn).
Arguments Ok {A} a.
Arguments Raise {A} e.

(** A handler: from the state of the store to an outcome and the state
    it leaves. *)
Definition M (A : Type) := DB -> Result A * DB.

Definition ret {A} (a : A) : M A := fun db => (Ok a, db).
Definition raise {A} (e : exn) : M A := fun db => (Raise e, db).
Definition bind {A B} (m : M A) (k : A -> M B) : M B :=
  fun db =>
    match m db with
    | (Ok a, db') => k a db'
    | (Raise e, db') => (Raise e, db')
    end.

Declare Scope handler_scope.
Delimit Scope handler_scope with handler.
Notation "x <- m ;; k" := (bind m (fun x => k))
  (at level 61, m at next level, right associativity) : handler_scope.
Notation "m ;; k" := (bind m (fun _ => k))
  (at level 61, right associativity) : handler_scope.
Local Open Scope handler_scope.

(** A named collection of [db]: how to read it, how to replace it,
    whether it accepts writes, which of its documents BSON can encode,
    and how its documents show in the journal. *)
Record Coll (A : Type) := mkColl {
  docs : DB -> Collection A;
  set_docs : Collection A -> DB -> DB;
  writable : DB -> bool;
  encodes : A -> bool;
  wrap : A -> Doc }.
Arguments docs {A}.
Arguments set_docs {A}.
Arguments writable {A}.
Arguments encodes {A}.
Arguments wrap {A}.

Definition seller_c : Coll Seller.t :=
  mkColl _ seller
    (fun l db => mkDB l (store db) (product db) (order db) (notification db)
                   (next_id db) (sink_up db) (writes db))
    (fun _ => true) (fun _ => true) seller_doc.
Definition store_c : Coll Store.t :=
  mkColl _ store
    (fun l db => mkDB (seller db) l (product db) (order db) (notification db)
                   (next_id db) (sink_up db) (writes db))
    (fun _ => true) (fun _ => true) store_doc.
Definition product_c : Coll Product.t :=
  mkColl _ product
    (fun l db => mkDB (seller db) (store db) l (order db) (notification db)
                   (next_id db) (sink_up db) (writes db))
    (fun _ => true) (fun _ => true) product_doc.
Definition order_c : Coll Order.t :=
  mkColl _ order
    (fun l db => mkDB (seller db) (store db) (product db) l (notification db)
                   (next_id db) (sink_up db) (writes db))
    (fun _ => true) Order.encodable order_doc.
Definition notification_c : Coll Notification.t :=
  mkColl _ notification
    (fun l db => mkDB (seller db) (store db) (product db) (order db) l
                   (next_id db) (sink_up db) (writes db))
    sink_up (fun _ => true) notification_doc.

Definition fresh_id (db : DB) : DB :=
  mkDB (seller db) (store db) (product db) (order db) (notification db)
    (N.succ (next_id db)) (sink_up db) (writes db).

(** The journal gets one more entry. *)
Definition record (w : Write) (db : DB) : DB :=
  mkDB (seller db) (store db) (product db) (order db) (notification db)
    (next_id db) (sink_up db) (writes db ++ [w]).

(** [db[c].find_one(filter)]: the first matching document, or [None]. *)
Definition find_one {A} (c : Coll A) (flt : ObjectId * A -> bool)
  : M (option (ObjectId * A)) :=
  fun db => (Ok (List.find flt (docs c db)), db).

(** [db[c].insert_one(doc)]: [doc] goes last, under a new identifier.
    The driver encodes the document before it sends it, and raises
    [OverflowError] when an integer of it does not fit eight bytes. *)
Definition insert_one {A} (c : Coll A) (doc : A) : M ObjectId :=
  fun db =>
    if encodes c doc
    then if writable c db
         then let oid := next_id db in
              (Ok oid,
               record (Inserted oid (wrap c doc))
                 (set_docs c (docs c db ++ [(oid, doc)]) (fresh_id db)))
         else (Raise PyMongoError, db)
    else (Raise OverflowError, db).

Fixpoint update_first {A} (flt : ObjectId * A -> bool) (f : A -> A)
  (l : Collection A) : Collection A :=
  match l with
  | [] => []
  | d :: r => if flt d then (fst d, f (snd d)) :: r
              else d :: update_first flt f r
  end.

(** [db[c].update_one(filter, {"$set": ...})]: the first matching
    document is changed by [f]; nothing happens, and nothing is
    written, when none matches. *)
Definition update_one {A} (c : Coll A) (flt : ObjectId * A -> bool)
  (f : A -> A) : M unit :=
  fun db =>
    let db' := set_docs c (update_first flt f (docs c db)) db in
    (Ok tt,
     match List.find flt (docs c db) with
     | Some d => record (Updated (fst d) (wrap c (snd d)) (wrap c (f (snd d)))) db'
     | None => db'
     end).

(** Modelled from the spec: [create_document] of [database.py], the
    DocumentStore's [create(collection, document) -> id]: the document
    is stored under a generated identifier, which is returned as a
    string. *)
Definition create_document {A} (c : Coll A) (data : A) : M string :=
  oid <- insert_one c data ;;
  ret (str_of_oid oid).

(** Modelled from the spec: [get_documents] of [database.py], the
    DocumentStore's [findMany(collection, filter)]: the documents that
    match, in insertion order. *)
Definition get_documents {A} (c : Coll A) (flt : ObjectId * A -> bool)
  : M (Collection A) :=
  fun db => (Ok (List.filter flt (docs c db)), db).

(** The filter [{"_id": oid}] for the identifier of a document. *)
Definition by_id {A} (oid : ObjectId) (d : ObjectId * A) : bool :=
  (fst d =? oid)%N.

(** The filter [{"_id": ObjectId(s)}]: an identifier of fewer than
    twelve bytes matches no document. *)
Definition by_key {A} (k : Key) (d : ObjectId * A) : bool :=
  match k with
  | Twelve oid => by_id oid d
  | Fewer _ => false
  end.

Definition lift {A} (r : Result A) : M A := fun db => (r, db).

(** ** Helpers ([main.py]) *)

Definition to_object_id (id_str : string) : M Key :=
  match ObjectId_of_str id_str with
  | Some oid => ret oid
  | None => raise (HTTPException 400 "Invalid id format")
  end.

Definition ensure_unique_slug (slug : string) : M unit :=
  existing <- find_one store_c (fun d => Store.slug (snd d) =? slug)%string ;;
  match existing with
  | Some _ => raise (HTTPException 400 "Store slug already exists")
  | None => ret tt
  end.

(** ** Auth/Onboarding *)

Section Signup.

(** The [EmailStr] validation of the [Seller] model, which [schemas.py]
    takes from the email-validator package: the normalised address, or
    [None] when the string is no address. *)
Variable validate_email : string -> option string.

(** [Seller(...)]: raises when [email] is given and is no address, and
    otherwise holds the address as the validator normalised it. *)
Definition Seller_new (name phone : string) (email whatsapp_number : option string)
  : Result Seller.t :=
  match email with
  | Some e =>
      match validate_email e with
      | Some address => Ok (Seller.mk name (Some address) phone whatsapp_number None)
      | None => Raise ValidationError
      end
  | None => Ok (Seller.mk name None phone whatsapp_number None)
  end.

Definition signup (payload : SignupRequest.t) : M string :=
  seller <- lift (Seller_new (SignupRequest.name payload)
                    (SignupRequest.phone payload)
                    (SignupRequest.email payload)
                    (SignupRequest.whatsapp_number payload)) ;;
  seller_id <- create_document seller_c seller ;;
  ret seller_id.

End Signup.

(** ** Store *)

Definition create_store (payload : CreateStoreRequest.t) : M string :=
  ensure_unique_slug (CreateStoreRequest.slug payload) ;;
  oid <- to_object_id (CreateStoreRequest.owner_id payload) ;;
  owner <- find_one seller_c (by_key oid) ;;
  match owner with
  | None => raise (HTTPException 404 "Owner not found")
  | Some (_, owner) =>
      let store :=
        Store.mk
          (CreateStoreRequest.owner_id payload)
          (CreateStoreRequest.name payload)
          (lower (CreateStoreRequest.slug payload))
          (CreateStoreRequest.description payload)
          (py_or (py_or (CreateStoreRequest.whatsapp_number payload)
                        (Seller.whatsapp_number owner))
                 (Some (Seller.phone owner)))
          None in
      store_id <- create_document store_c store ;;
      ret store_id
  end.

Definition get_store (slug : string) : M (string * Store.t) :=
  store <- find_one store_c (fun d => Store.slug (snd d) =? lower slug)%string ;;
  match store with
  | None => raise (HTTPException 404 "Store not found")
  | Some (oid, s) => ret (str_of_oid oid, s)
  end.

(** ** Products *)

(** [Product(...)]: [price: float = Field(..., ge=0)], and [is_active]
    takes its default. *)
Definition Product_new (store_slug name : string) (price : float)
  (description image_url : option string) : Result Product.t :=
  if (0 <=? price)%float
  then Ok (Product.mk store_slug name price description image_url true)
  else Raise ValidationError.

Definition create_product (payload : CreateProductRequest.t) : M string :=
  store <- find_one store_c
             (fun d => Store.slug (snd d) =? lower (CreateProductRequest.store_slug payload))%string ;;
  match store with
  | None => raise (HTTPException 404 "Store not found")
  | Some _ =>
      product <- lift (Product_new
                         (lower (CreateProductRequest.store_slug payload))
                         (CreateProductRequest.name payload)
                         (CreateProductRequest.price payload)
                         (CreateProductRequest.description payload)
                         (CreateProductRequest.image_url payload)) ;;
      product_id <- create_document product_c product ;;
      ret product_id
  end.

(** The filter [{"store_slug": slug, "is_active": True}]. *)
Definition active_in (slug : string) (d : ObjectId * Product.t) : bool :=
  (Product.store_slug (snd d) =? slug)%string && Bool.eqb (Product.is_active (snd d)) true.

Definition list_products (store_slug : string) : M (list (string * Product.t)) :=
  items <- get_documents product_c (active_in (lower store_slug)) ;;
  ret (map (fun it => (str_of_oid (fst it), snd it)) items).

(** ** Orders + MPesa STK *)

(** The loop [for item in payload.items: total += item.price * item.quantity]. *)
Fixpoint accumulate (items : list OrderItem.t) (total : float) : Result float :=
  match items with
  | [] => Ok total
  | item :: rest =>
      match float_of_int (OrderItem.quantity item) with
      | Some q => accumulate rest (total + OrderItem.price item * q)%float
      | None => Raise OverflowError
      end
  end.

(** The [$set] of the payment step. *)
Definition set_paid (o : Order.t) : Order.t :=
  Order.mk (Order.store_slug o) (Order.items o) (Order.total o)
    (Order.customer o) "paid" [("status", "success")].

Definition checkout (payload : CheckoutRequest.t) : M CheckoutResponse.t :=
  total <- lift (accumulate (CheckoutRequest.items payload) 0%float) ;;
  let order :=
    Order.mk
      (lower (CheckoutRequest.store_slug payload))
      (CheckoutRequest.items payload)
      (py_round2 total)
      (CheckoutRequest.customer payload)
      "pending"
      [] in
  order_id <- create_document order_c order ;;
  oid <- match ObjectId_of_str order_id with
         | Some oid => ret oid
         | None => raise InvalidId
         end ;;
  update_one order_c (by_key oid) set_paid ;;
  insert_one notification_c
    (Notification.mk "whatsapp"
       (lower (CheckoutRequest.store_slug payload))
       order_id
       (Notification.mk_text
          (List.length (CheckoutRequest.items payload))
          (py_round2 total)
          (CustomerInfo.phone (CheckoutRequest.customer payload)))) ;;
  ret (CheckoutResponse.mk order_id "paid").

(** [POST /api/checkout]: FastAPI validates the body against
    [CheckoutRequest] and only then calls the handler. *)
Definition api_checkout (payload : CheckoutRequest.t) : M CheckoutResponse.t :=
  if CheckoutRequest.valid payload then checkout payload
  else raise RequestValidationError.

(** * Definitions for the statements *)

(** ** Reading the store *)

(** The number that a string of hexadecimal digits spells after [acc],
    most significant digit first. *)
Fixpoint hex_parse (s : string) (acc : N) : option N :=
  match s with
  | EmptyString => Some acc
  | String c r =>
      match hex_val c with
      | Some d => hex_parse r (16 * acc + d)
      | None => None
      end
  end%N.

(** The filter [{"slug": slug}]. *)
Definition has_slug (slug : string) (d : ObjectId * Store.t) : bool :=
  (Store.slug (snd d) =? slug)%string.

Definition ids_below {A} (n : N) (c : Collection A) : Prop :=
  Forall (fun d => (fst d < n)%N) c.

(** A store whose order identifiers are all older than the next one
    the driver hands out, which still fits twelve bytes. *)
Definition wf (db : DB) : Prop :=
  (next_id db < 2 ^ 96)%N /\ ids_below (next_id db) (order db).

(** Every product names the slug of a store that exists. *)
Definition products_resolve (db : DB) : Prop :=
  Forall
    (fun d => exists s, In s (store db)
                        /\ Store.slug (snd s) = Product.store_slug (snd d))
    (product db).

Definition stored_slugs (db : DB) : list string :=
  map (fun d => Store.slug (snd d)) (store db).

(** Every stored slug is in lower case. *)
Definition slugs_lower (db : DB) : Prop :=
  Forall (fun d => lower (Store.slug (snd d)) = Store.slug (snd d)) (store db).

(** ** What the handlers build *)

(** The store [create_store] builds for [payload] and its [owner]. *)
Definition new_store (payload : CreateStoreRequest.t) (owner : Seller.t) : Store.t :=
  Store.mk
    (CreateStoreRequest.owner_id payload)
    (CreateStoreRequest.name payload)
    (lower (CreateStoreRequest.slug payload))
    (CreateStoreRequest.description payload)
    (py_or (py_or (CreateStoreRequest.whatsapp_number payload)
                  (Seller.whatsapp_number owner))
           (Some (Seller.phone owner)))
    None.

(** The product [create_product] builds for [payload]. *)
Definition new_product (payload : CreateProductRequest.t) : Product.t :=
  Product.mk
    (lower (CreateProductRequest.store_slug payload))
    (CreateProductRequest.name payload)
    (CreateProductRequest.price payload)
    (CreateProductRequest.description payload)
    (CreateProductRequest.image_url payload)
    true.

(** The order as [checkout] first builds it. *)
Definition pending_order (payload : CheckoutRequest.t) (total : float) : Order.t :=
  Order.mk (lower (CheckoutRequest.store_slug payload))
    (CheckoutRequest.items payload) (py_round2 total)
    (CheckoutRequest.customer payload) "pending" [].

Definition order_notification (payload : CheckoutRequest.t) (total : float)
  (order_id : string) : Notification.t :=
  Notification.mk "whatsapp" (lower (CheckoutRequest.store_slug payload)) order_id
    (Notification.mk_text (List.length (CheckoutRequest.items payload))
       (py_round2 total) (CustomerInfo.phone (CheckoutRequest.customer payload))).

(** The two writes of a checkout to the order collection: the order
    goes in as built, and is then replaced by the paid one. *)
Definition order_writes (payload : CheckoutRequest.t) (total : float)
  (oid : ObjectId) : list Write :=
  [Inserted oid (order_doc (pending_order payload total));
   Updated oid (order_doc (pending_order payload total))
     (order_doc (set_paid (pending_order payload total)))].

(** The store after the order was inserted and marked paid. *)
Definition paid_db (payload : CheckoutRequest.t) (total : float) (db : DB) : DB :=
  mkDB (seller db) (store db) (product db)
    (order db ++ [(next_id db, set_paid (pending_order payload total))])
    (notification db) (N.succ (next_id db)) (sink_up db)
    (writes db ++ order_writes payload total (next_id db)).

(** The store after the notification was written as well. *)
Definition notified_db (payload : CheckoutRequest.t) (total : float) (db : DB) : DB :=
  mkDB (seller db) (store db) (product db)
    (order db ++ [(next_id db, set_paid (pending_order payload total))])
    (notification db
       ++ [(N.succ (next_id db),
            order_notification payload total (str_of_oid (next_id db)))])
    (N.succ (N.succ (next_id db))) (sink_up db)
    (writes db ++ order_writes payload total (next_id db)
       ++ [Inserted (N.succ (next_id db))
             (notification_doc
                (order_notification payload total (str_of_oid (next_id db))))]).

(** ** The total, as the specification words it *)

(** Every quantity converts to a float, so the loop of [checkout] runs
    to its end. *)
Definition quantities_fit (items : list OrderItem.t) : Prop :=
  Forall (fun it => float_of_int (OrderItem.quantity it) <> None) items.

(** Every quantity fits eight bytes, so the order can be stored. *)
Definition quantities_int64 (items : list OrderItem.t) : Prop :=
  Forall (fun it => int64 (OrderItem.quantity it) = true) items.

(** [item.price * item.quantity], one value per line. *)
Fixpoint line_totals (items : list OrderItem.t) : Result (list float) :=
  match items with
  | [] => Ok []
  | item :: rest =>
      match float_of_int (OrderItem.quantity item) with
      | Some q =>
          match line_totals rest with
          | Ok l => Ok ((OrderItem.price item * q)%float :: l)
          | Raise e => Raise e
          end
      | None => Raise OverflowError
      end
  end.

(** The accumulated sum of a list of floats, from [0.0], left to right. *)
Definition running_sum (l : list float) : float := fold_left PrimFloat.add l 0%float.

(** [round(sum(item.price * item.quantity for item in items), 2)]. *)
Definition sum_then_round (items : list OrderItem.t) : Result float :=
  match line_totals items with
  | Ok l => Ok (py_round2 (running_sum l))
  | Raise e => Raise e
  end.

(** The other order of operations: each line rounded, then the sum. *)
Definition round_then_sum (items : list OrderItem.t) : Result float :=
  match line_totals items with
  | Ok l => Ok (running_sum (map py_round2 l))
  | Raise e => Raise e
  end.

(** ** The states the API can reach *)

Section Reachable.

Variable validate_email : string -> option string.

(** One request served, or the notification sink going up or down. *)
Inductive step : DB -> DB -> Prop :=
| step_signup p db : step db (snd (signup validate_email p db))
| step_create_store p db : step db (snd (create_store p db))
| step_get_store slug db : step db (snd (get_store slug db))
| step_create_product p db : step db (snd (create_product p db))
| step_list_products slug db : step db (snd (list_products slug db))
| step_checkout p db : step db (snd (api_checkout p db))
| step_sink b db :
    step db (mkDB (seller db) (store db) (product db) (order db)
               (notification db) (next_id db) b (writes db)).

Inductive reachable : DB -> Prop :=
| reachable_empty b : reachable (mkDB [] [] [] [] [] 0%N b [])
| reachable_step db db' : reachable db -> step db db' -> reachable db'.

End Reachable.

(** ** Sample requests and stores *)

Definition demo_customer : CustomerInfo.t := CustomerInfo.mk None "254711111111".

Definition two_lines (p1 n1 p2 n2 : string) : list OrderItem.t :=
  [OrderItem.mk p1 n1 100.005%float 2; OrderItem.mk p2 n2 50%float 1].

Definition small_lines : list OrderItem.t :=
  [OrderItem.mk "a" "a" 0.004%float 1; OrderItem.mk "b" "b" 0.004%float 1].

Definition mandazi_request : CheckoutRequest.t :=
  CheckoutRequest.mk "JANE-SHOP" [OrderItem.mk "p" "Mandazi" 20%float 3] demo_customer.

Definition empty_request : CheckoutRequest.t :=
  CheckoutRequest.mk "jane-shop" [] demo_customer.

Definition refund_request : CheckoutRequest.t :=
  CheckoutRequest.mk "jane-shop" [OrderItem.mk "p" "Mandazi" (-5)%float 1] demo_customer.

Definition zero_quantity_item : OrderItem.t := OrderItem.mk "p" "Mandazi" 20%float 0.

Definition zero_quantity_request : CheckoutRequest.t :=
  CheckoutRequest.mk "jane-shop" [zero_quantity_item] demo_customer.

(** A store whose notification sink refuses writes. *)
Definition sink_down_db : DB := mkDB [] [] [] [] [] 0%N false [].

Definition jane : Seller.t :=
  Seller.mk "Jane" None "254700000000" (Some "254722222222") None.

Definition jane_db : DB := mkDB [(0%N, jane)] [] [] [] [] 1%N true [].

Definition blank_whatsapp_request : CreateStoreRequest.t :=
  CreateStoreRequest.mk "000000000000000000000000" "Jane Shop" "jane-shop" None (Some EmptyString).

Definition shop : Store.t :=
  Store.mk "000000000000000000000000" "Jane Shop" "jane-shop" None
    (Some "254700000000") None.

Definition shop_db : DB := mkDB [(0%N, jane)] [(1%N, shop)] [] [] [] 2%N true [].

Definition negative_price_request : CreateProductRequest.t :=
  CreateProductRequest.mk "Jane-Shop" "Mandazi" (-1)%float None None.

Definition mandazi_product : CreateProductRequest.t :=
  CreateProductRequest.mk "Jane-Shop" "Mandazi" 20%float None None.

Definition catalog_db : DB :=
  mkDB [(0%N, jane)] [(1%N, shop)]
    [(2%N, Product.mk "jane-shop" "Mandazi" 20%float None None true);
     (3%N, Product.mk "jane-shop" "Chai" 30%float None None false)]
    [] [] 4%N true [].

(** The end-to-end scenario: a seller signs up, opens a store, lists a
    product, and a customer checks out under a mixed-case slug. *)
Definition scenario (validate_email : string -> option string) : Result CheckoutResponse.t * DB :=
  (owner <- signup validate_email (SignupRequest.mk "Jane" "254700000000" None None) ;;
   _ <- create_store (CreateStoreRequest.mk owner "Jane Shop" "jane-shop" None None) ;;
   P <- create_product (CreateProductRequest.mk "jane-shop" "Mandazi" 20%float None None) ;;
   api_checkout
     (CheckoutRequest.mk "JANE-SHOP" [OrderItem.mk P "Mandazi" 20%float 3]
        (CustomerInfo.mk None "254711111111")))
    empty_db.

(** A seller signs up and creates two stores, under the slugs [s1]
    and then [s2]. *)
Definition two_stores (validate_email : string -> option string) (s1 s2 : string)
  : Result string * DB :=
  (owner <- signup validate_email (SignupRequest.mk "Jane" "254700000000" None None) ;;
   _ <- create_store (CreateStoreRequest.mk owner "Jane Shop" s1 None None) ;;
   create_store (CreateStoreRequest.mk owner "Jane Shop" s2 None None))
    empty_db.

(** ** Diagnostics ([main.py]) *)

(** What [GET /test] looks at: the handle [db] of [database.py], which
    is [None] when no connection was configured, and two environment
    variables.  Of the handle it uses its [name] attribute, when it has
    one, and [list_collection_names()], which returns the names or
    raises with a message. *)
Module Handle.
Record t := mk {
  name : option string;
  list_collection_names : string + list string }.
End Handle.

Module Env.
Record t := mk {
  db : option Handle.t;
  DATABASE_URL : option string;
  DATABASE_NAME : option string }.
End Env.

(** The dictionary [test_database] returns. *)
Module Report.
Record t := mk {
  backend : string;
  database : string;
  database_url : option string;
  database_name : option string;
  connection_status : string;
  collections : list string }.
End Report.

(** Strings are held as their UTF-8 bytes; a character of a Python
    [str] is one byte that is not of the form [10xxxxxx], followed by
    those that are. *)
Definition continuation (c : ascii) : bool :=
  match c with
  | Ascii _ _ _ _ _ _ b6 b7 => b7 && negb b6
  end.

(** [len(s)] *)
Fixpoint count_chars (s : string) : nat :=
  match s with
  | EmptyString => 0
  | String c r => if continuation c then count_chars r else S (count_chars r)
  end.

(** [s[:n]] *)
Fixpoint take_chars (n : nat) (s : string) : string :=
  match s with
  | EmptyString => EmptyString
  | String c r =>
      if continuation c then String c (take_chars n r)
      else match n with
           | O => EmptyString
           | S m => String c (take_chars m r)
           end
  end.

(** [s[:50]] *)
Definition first50 (s : string) : string := take_chars 50 s.

(** The state of [response] when the [try] block of [test_database] is
    left.  Nothing in the block raises outside the inner [try], so the
    outer [except] is never entered. *)
Definition probe (h : option Handle.t) : Report.t :=
  match h with
  | Some d =>
      let database_name :=
        match Handle.name d with
        | Some n => n
        | None => "✅ Connected"
        end in
      match Handle.list_collection_names d with
      | inr collections =>
          Report.mk "✅ Running" "✅ Connected & Working"
            (Some "✅ Configured") (Some database_name) "Connected"
            (firstn 10 collections)
      | inl e =>
          Report.mk "✅ Running"
            (String.append "⚠️  Connected but Error: " (first50 e))
            (Some "✅ Configured") (Some database_name) "Connected" []
      end
  | None =>
      Report.mk "✅ Running" "⚠️  Available but not initialized"
        None None "Not Connected" []
  end.

(** [GET /test] *)
Definition test_database (env : Env.t) : Report.t :=
  let response := probe (Env.db env) in
  Report.mk
    (Report.backend response)
    (Report.database response)
    (Some (if truthy (Env.DATABASE_URL env) then "✅ Set" else "❌ Not Set"))
    (Some (if truthy (Env.DATABASE_NAME env) then "✅ Set" else "❌ Not Set"))
    (Report.connection_status response)
    (Report.collections response).

(** ** What holds of every document *)

(** An order as a finished checkout leaves it. *)
Definition settled (o : Order.t) : Prop :=
  Order.status o = "paid"
  /\ Order.mpesa o = [("status", "success")]
  /\ lower (Order.store_slug o) = Order.store_slug o
  /\ sum_then_round (Order.items o) = Ok (Order.total o).

(** The owner of a store is a seller of the store. *)
Definition owned (db : DB) (s : Store.t) : Prop :=
  exists oid d,
    ObjectId_of_str (Store.owner_id s) = Some (Twelve oid)
    /\ List.find (by_id oid) (seller db) = Some d.

(** A product as [create_product] leaves it. *)
Definition listed (db : DB) (p : Product.t) : Prop :=
  Product.is_active p = true
  /\ (0 <=? Product.price p)%float = true
  /\ lower (Product.store_slug p) = Product.store_slug p
  /\ exists s, In s (store db) /\ Store.slug (snd s) = Product.store_slug p.

(** A notification tells of an order of the store. *)
Definition announces (db : DB) (n : Notification.t) : Prop :=
  exists i o,
    In (i, o) (order db)
    /\ Notification.order_id n = str_of_oid i
    /\ Notification.type n = "whatsapp"
    /\ Notification.store_slug n = Order.store_slug o
    /\ Notification.item_count (Notification.message n) = List.length (Order.items o)
    /\ Notification.amount (Notification.message n) = Order.total o
    /\ Notification.from_phone (Notification.message n)
       = CustomerInfo.phone (Order.customer o).

(** Signing up and then opening a store with the identifier returned. *)
Definition signup_then_create_store (validate_email : string -> option string)
  (seller : SignupRequest.t) (name slug : string)
  (description whatsapp_number : option string) : M string :=
  owner_id <- signup validate_email seller ;;
  create_store (CreateStoreRequest.mk owner_id name slug description whatsapp_number).

(** ** Further sample requests *)

Definition taken_slug_bad_owner : CreateStoreRequest.t :=
  CreateStoreRequest.mk "not-an-id" "Other Shop" "jane-shop" None None.

Definition jane_signup : SignupRequest.t :=
  SignupRequest.mk "Jane" "254700000000" (Some "Jane@EXAMPLE.COM")
    (Some "254722222222").

(** A validator that knows one address, and normalises it as
    email-validator does: the domain in lower case. *)
Definition knows_jane (e : string) : option string :=
  if (e =? "Jane@EXAMPLE.COM")%string then Some "Jane@example.com" else None.

Definition open_jane_shop : CreateStoreRequest.t :=
  CreateStoreRequest.mk "000000000000000000000000" "Jane Shop" "Jane-Shop" None None.

Definition bulk_request : CheckoutRequest.t :=
  CheckoutRequest.mk "jane-shop"
    [OrderItem.mk "p" "Mandazi" 20%float (2 ^ 64); OrderItem.mk "q" "Chai" (-1)%float 7]
    demo_customer.

(** ** Changes of the store *)

(** The ways a request, or the sink, changes the store; [w] is the
    journal afterwards. *)
Inductive change : DB -> DB -> Prop :=
| change_none db : change db db
| change_seller db s w :
    change db
      (mkDB (seller db ++ [(next_id db, s)]) (store db) (product db) (order db)
         (notification db) (N.succ (next_id db)) (sink_up db) w)
| change_store db p oid d w :
    List.find (has_slug (CreateStoreRequest.slug p)) (store db) = None ->
    ObjectId_of_str (CreateStoreRequest.owner_id p) = Some (Twelve oid) ->
    List.find (by_id oid) (seller db) = Some d ->
    change db
      (mkDB (seller db) (store db ++ [(next_id db, new_store p (snd d))])
         (product db) (order db) (notification db)
         (N.succ (next_id db)) (sink_up db) w)
| change_product db p d w :
    List.find (has_slug (lower (CreateProductRequest.store_slug p))) (store db)
    = Some d ->
    (0 <=? CreateProductRequest.price p)%float = true ->
    change db
      (mkDB (seller db) (store db)
         (product db ++ [(next_id db, new_product p)])
         (order db) (notification db) (N.succ (next_id db)) (sink_up db) w)
| change_checkout db payload total :
    accumulate (CheckoutRequest.items payload) 0%float = Ok total ->
    quantities_int64 (CheckoutRequest.items payload) ->
    change db (snd (checkout payload db))
| change_sink db b :
    change db
      (mkDB (seller db) (store db) (product db) (order db) (notification db)
         (next_id db) b (writes db)).

(** * Properties *)

(** ** Floats *)

Example round_250_01 : py_round2 250.01%float = 250.01%float.
Proof. vm_compute. reflexivity. Qed.

Example round_tie_even : py_round2 0.125%float = 0.12%float.
Proof. vm_compute. reflexivity. Qed.

Example round_2_675 : py_round2 2.675%float = 2.67%float.
Proof. vm_compute. reflexivity. Qed.

Example round_neg_small : py_round2 (-0.001)%float = (-0)%float.
Proof. vm_compute. reflexivity. Qed.

Example round_big : py_round2 1e300%float = 1e300%float.
Proof. vm_compute. reflexivity. Qed.

Example round_1_005 : py_round2 1.005%float = 1%float.
Proof. vm_compute. reflexivity. Qed.

Example round_neg_tie : py_round2 (-0.375)%float = (-0.38)%float.
Proof. vm_compute. reflexivity. Qed.

Example float_of_big : float_of_int (2 ^ 1024) = None.
Proof. vm_compute. reflexivity. Qed.

Example float_of_tie : float_of_int (2 ^ 53 + 1) = Some 9007199254740992%float.
Proof. vm_compute. reflexivity. Qed.

(** *** Quantities that convert *)

Lemma digits2_pos_iter_xO (m k : positive) :
  digits2_pos (Pos.iter xO m k) = (digits2_pos m + k)%positive.
Proof.
  induction k as [|k IH] using Pos.peano_ind.
  - simpl. lia.
  - rewrite Pos.iter_succ. simpl. rewrite IH. lia.
Qed.

Lemma digits2_pos_le (m : positive) :
  2 ^ (Z.pos (digits2_pos m) - 1) <= Z.pos m.
Proof.
  induction m as [m IH|m IH|]; simpl digits2_pos.
  - rewrite Pos2Z.inj_succ.
    replace (Z.succ (Z.pos (digits2_pos m)) - 1) with (Z.succ (Z.pos (digits2_pos m) - 1)) by lia.
    rewrite Z.pow_succ_r by lia. lia.
  - rewrite Pos2Z.inj_succ.
    replace (Z.succ (Z.pos (digits2_pos m)) - 1) with (Z.succ (Z.pos (digits2_pos m) - 1)) by lia.
    rewrite Z.pow_succ_r by lia. lia.
  - simpl. lia.
Qed.

Lemma digits2_pos_gt (m : positive) : Z.pos m < 2 ^ Z.pos (digits2_pos m).
Proof.
  induction m as [m IH|m IH|]; simpl digits2_pos.
  - rewrite Pos2Z.inj_succ, Z.pow_succ_r by lia. lia.
  - rewrite Pos2Z.inj_succ, Z.pow_succ_r by lia. lia.
  - reflexivity.
Qed.

(** [m < 2^k] bounds the number of digits of [m] by [k]. *)
Lemma Zdigits2_le (m k : Z) : 0 <= k -> 0 <= m < 2 ^ k -> Zdigits2 m <= k.
Proof.
  intros Hk [H0 Hm]. destruct m as [|p|p]; simpl; [lia| |lia].
  pose proof (digits2_pos_le p) as Hle.
  destruct (Z_le_gt_dec (Z.pos (digits2_pos p)) k) as [|Hgt]; [assumption|].
  exfalso.
  assert (2 ^ k <= 2 ^ (Z.pos (digits2_pos p) - 1)) by (apply Z.pow_le_mono_r; lia).
  lia.
Qed.

Lemma iter_pos_nat {A} (f : A -> A) (k : positive) (x : A) :
  iter_pos f k x = Nat.iter (Pos.to_nat k) f x.
Proof.
  revert x; induction k as [k IH|k IH|]; intros x; simpl iter_pos.
  - rewrite !IH, Pos2Nat.inj_xI, Nat.iter_succ_r.
    replace (2 * Pos.to_nat k)%nat with (Pos.to_nat k + Pos.to_nat k)%nat by lia.
    now rewrite Nat.iter_add.
  - rewrite !IH, Pos2Nat.inj_xO.
    replace (2 * Pos.to_nat k)%nat with (Pos.to_nat k + Pos.to_nat k)%nat by lia.
    now rewrite Nat.iter_add.
  - reflexivity.
Qed.

Lemma shr_1_m (mrs : shr_record) :
  0 <= shr_m mrs -> shr_m (shr_1 mrs) = Z.div2 (shr_m mrs).
Proof.
  destruct mrs as [m r s]. destruct m as [|[p|p|]|p]; simpl; intros H; try reflexivity; lia.
Qed.

Lemma shr_iter_m (n : nat) (mrs : shr_record) :
  0 <= shr_m mrs ->
  shr_m (Nat.iter n shr_1 mrs) = shr_m mrs / 2 ^ Z.of_nat n.
Proof.
  intros H0. induction n as [|n IH].
  - simpl. now rewrite Z.div_1_r.
  - rewrite Nat.iter_succ, shr_1_m.
    + rewrite IH, Z.div2_div, Z.div_div by lia.
      rewrite Nat2Z.inj_succ, Z.pow_succ_r by lia. f_equal. lia.
    + rewrite IH. apply Z.div_pos; lia.
Qed.

Lemma shr_m_shr (m : positive) (e : Z) (k : positive) :
  shr_m (fst (shr (Build_shr_record (Z.pos m) false false) e (Z.pos k)))
  = Z.pos m / 2 ^ Z.pos k.
Proof.
  unfold shr. cbn [fst]. rewrite iter_pos_nat, shr_iter_m by (cbn; lia).
  cbn [shr_m]. now rewrite positive_nat_Z.
Qed.

Lemma round_nearest_even_le (m : Z) (l : location) :
  m <= round_nearest_even m l <= m + 1.
Proof.
  destruct l as [|[]]; cbn; [lia| |lia|lia].
  destruct (Z.even m); lia.
Qed.

(** Beyond 53 digits the mantissa is shifted and rounded; the exponent
    it ends with stays in range. *)
Lemma binary_round_aux_finite (s : bool) (m : positive) :
  53 < Z.pos (digits2_pos m) <= 1023 ->
  forall s', binary_round_aux prec emax s (Z.pos m) 0 loc_Exact <> S754_infinity s'.
Proof.
  intros Hd s'. unfold binary_round_aux.
  unfold shr_fexp at 1.
  assert (Hf : fexp prec emax (Zdigits2 (Z.pos m) + 0) - 0
               = Z.pos (digits2_pos m) - 53).
  { unfold fexp, emin, prec, emax. cbn [Zdigits2]. lia. }
  rewrite Hf. cbn [shr_record_of_loc].
  destruct (Z.pos (digits2_pos m) - 53) as [|k|k] eqn:Ek; [lia| |lia].
  pose proof (shr_m_shr m 0 k) as Hm.
  destruct (shr (Build_shr_record (Z.pos m) false false) 0 (Z.pos k))
    as [mrs' e'] eqn:Hshr.
  assert (He' : e' = Z.pos k) by (unfold shr in Hshr; now inversion Hshr).
  cbn [fst] in Hm.
  set (m1 := round_nearest_even (shr_m mrs') (loc_of_shr_record mrs')).
  assert (Hm1 : 0 <= m1 < 2 ^ 54).
  { pose proof (round_nearest_even_le (shr_m mrs') (loc_of_shr_record mrs')) as Hr.
    fold m1 in Hr. rewrite Hm in Hr.
    assert (0 <= Z.pos m / 2 ^ Z.pos k) by (apply Z.div_pos; lia).
    assert (Z.pos m / 2 ^ Z.pos k < 2 ^ 53).
    { apply Z.div_lt_upper_bound; [lia|].
      rewrite <- Z.pow_add_r by lia.
      replace (Z.pos k + 53) with (Z.pos (digits2_pos m)) by lia.
      apply digits2_pos_gt. }
    lia. }
  pose proof (Zdigits2_le m1 54 ltac:(lia) Hm1) as Hdig.
  unfold shr_fexp.
  destruct (shr (shr_record_of_loc m1 loc_Exact) e'
              (fexp prec emax (Zdigits2 m1 + e') - e')) as [mrs'' e''] eqn:Hshr2.
  assert (He'' : e'' <= 971).
  { unfold shr in Hshr2. revert Hshr2. unfold fexp, emin, prec, emax.
    destruct (Z.max (Zdigits2 m1 + e' - 53) (3 - 1024 - 53) - e') eqn:En;
      intros [= _ <-]; lia. }
  destruct (shr_m mrs''); try discriminate.
  apply Z.leb_le in He''.
  change (emax - prec) with 971. rewrite He''. discriminate.
Qed.

(** A mantissa of at most 53 digits is only aligned. *)
Lemma shr_fexp_canonical (m : positive) (e : Z) :
  fexp prec emax (Z.pos (digits2_pos m) + e) = e ->
  shr_fexp prec emax (Z.pos m) e loc_Exact
  = (Build_shr_record (Z.pos m) false false, e).
Proof.
  intros H. unfold shr_fexp, Zdigits2. rewrite H, Z.sub_diag. reflexivity.
Qed.

Lemma binary_round_aux_canonical (s : bool) (m : positive) (e : Z) :
  fexp prec emax (Z.pos (digits2_pos m) + e) = e ->
  e <= emax - prec ->
  binary_round_aux prec emax s (Z.pos m) e loc_Exact = S754_finite s m e.
Proof.
  intros H He. unfold binary_round_aux.
  rewrite (shr_fexp_canonical m e H).
  cbn [shr_m loc_of_shr_record round_nearest_even].
  rewrite (shr_fexp_canonical m e H). cbn [shr_m].
  apply Z.leb_le in He. now rewrite He.
Qed.

Lemma binary_round_finite (s : bool) (m : positive) :
  Z.pos m < 2 ^ 1023 ->
  forall s', binary_round prec emax s m 0 <> S754_infinity s'.
Proof.
  intros H s'.
  assert (Hd : Z.pos (digits2_pos m) <= 1023)
    by (apply (Zdigits2_le (Z.pos m) 1023); lia).
  unfold binary_round, shl_align.
  assert (Hf : fexp prec emax (Z.pos (digits2_pos m) + 0)
               = Z.max (Z.pos (digits2_pos m) - 53) (-1074)).
  { unfold fexp, emin, prec, emax. lia. }
  rewrite Hf.
  destruct (Z.max (Z.pos (digits2_pos m) - 53) (-1074) - 0) as [|k|k] eqn:Ek.
  - rewrite binary_round_aux_canonical; [discriminate| |unfold emax, prec; lia].
    rewrite Hf. lia.
  - apply binary_round_aux_finite. lia.
  - rewrite binary_round_aux_canonical; [discriminate| |unfold emax, prec; lia].
    rewrite digits2_pos_iter_xO. unfold fexp, emin, prec, emax. lia.
Qed.

(** An integer of magnitude below [2^1023] converts to a float. *)
Lemma float_of_int_fits (n : Z) : Z.abs n < 2 ^ 1023 -> float_of_int n <> None.
Proof.
  intros H. unfold float_of_int, binary_normalize.
  destruct n as [|m|m]; [discriminate| |].
  - pose proof (binary_round_finite false m ltac:(lia)) as Hfin.
    destruct (binary_round prec emax false m 0); try discriminate.
    now contradiction (Hfin s).
  - pose proof (binary_round_finite true m ltac:(lia)) as Hfin.
    destruct (binary_round prec emax true m 0); try discriminate.
    now contradiction (Hfin s).
Qed.

Lemma quantities_fit_bounded (items : list OrderItem.t) :
  Forall (fun it => Z.abs (OrderItem.quantity it) < 2 ^ 1023) items ->
  quantities_fit items.
Proof.
  intros H. eapply Forall_impl; [|exact H].
  intros it. apply float_of_int_fits.
Qed.

(** ** Strings *)

Lemma lower_ascii_idem (c : ascii) : lower_ascii (lower_ascii c) = lower_ascii c.
Proof. destruct c as [[] [] [] [] [] [] [] []]; reflexivity. Qed.

Lemma lower_idem (s : string) : lower (lower s) = lower s.
Proof.
  induction s as [|c r IH]; simpl; [reflexivity|].
  now rewrite lower_ascii_idem, IH.
Qed.

(** ** Object identifiers *)

Lemma hex_val_char (d : N) : (d < 16)%N -> hex_val (hex_char d) = Some d.
Proof.
  intros H.
  destruct d as [|p]; [reflexivity|].
  do 4 (destruct p as [p|p|]; try reflexivity); lia.
Qed.

Lemma length_hex_digits (w : nat) (n : N) (acc : string) :
  String.length (hex_digits w n acc) = (w + String.length acc)%nat.
Proof.
  revert n acc; induction w as [|w IH]; intros n acc; simpl; [reflexivity|].
  rewrite IH. simpl. lia.
Qed.

Lemma hex_parse_digits (w : nat) (n : N) (acc : string) (a : N) :
  hex_parse (hex_digits w n acc) a
  = hex_parse acc (16 ^ N.of_nat w * a + n mod 16 ^ N.of_nat w)%N.
Proof.
  revert n acc a; induction w as [|w IH]; intros n acc a.
  - cbn [hex_digits N.of_nat]. rewrite N.pow_0_r, N.mod_1_r. f_equal. lia.
  - cbn [hex_digits]. rewrite IH. cbn [hex_parse].
    rewrite hex_val_char by (apply N.mod_lt; lia).
    f_equal.
    rewrite Nat2N.inj_succ, N.pow_succ_r'.
    rewrite (N.Div0.mod_mul_r n 16 (16 ^ N.of_nat w)). lia.
Qed.

Lemma hex_val_not_space (c : ascii) (d : N) :
  hex_val c = Some d -> is_space c = false.
Proof.
  destruct c as [[] [] [] [] [] [] [] []]; vm_compute; intros H;
    (reflexivity || discriminate).
Qed.

(** On digits only, [bytes.fromhex] reads the number the digits spell,
    a byte for every two. *)
Lemma fromhex_digits (k : nat) (s : string) (a v : N) :
  String.length s = (2 * k)%nat ->
  hex_parse s a = Some v ->
  exists bs, fromhex s = Some bs
             /\ List.length bs = k
             /\ fold_left (fun a b => (256 * a + b)%N) bs a = v.
Proof.
  revert s a v. induction k as [|k IH]; intros s a v Hlen Hparse.
  - destruct s; [|discriminate]. cbn in Hparse. injection Hparse as <-.
    now exists [].
  - destruct s as [|c s]; [discriminate|].
    destruct s as [|c' r]; [cbn in Hlen; lia|].
    cbn [hex_parse] in Hparse.
    destruct (hex_val c) as [h|] eqn:Hc; [|discriminate].
    destruct (hex_val c') as [l|] eqn:Hc'; [|discriminate].
    assert (Hr : String.length r = (2 * k)%nat) by (cbn in Hlen; lia).
    destruct (IH r _ v Hr Hparse) as (bs & Hbs & Hk & Hv).
    exists ((16 * h + l)%N :: bs).
    cbn [fromhex]. rewrite (hex_val_not_space c h Hc), Hc, Hc', Hbs.
    split; [reflexivity|]. split; [cbn; now rewrite Hk|].
    cbn [fold_left]. rewrite <- Hv. f_equal. lia.
Qed.

Lemma ObjectId_of_str_of_oid (o : ObjectId) :
  (o < 2 ^ 96)%N -> ObjectId_of_str (str_of_oid o) = Some (Twelve o).
Proof.
  intros H.
  assert (Hlen : String.length (str_of_oid o) = 24%nat)
    by (unfold str_of_oid; now rewrite length_hex_digits).
  assert (Hparse : hex_parse (str_of_oid o) 0%N = Some o).
  { unfold str_of_oid. rewrite hex_parse_digits. cbn [hex_parse].
    change (16 ^ N.of_nat 24)%N with (2 ^ 96)%N.
    rewrite N.mod_small by exact H. now rewrite N.mul_0_r. }
  destruct (fromhex_digits 12 _ _ _ Hlen Hparse) as (bs & Hbs & Hk & Hv).
  unfold ObjectId_of_str. rewrite Hlen, Hbs, Hk. cbn [Nat.eqb].
  unfold N_of_bytes. now rewrite Hv.
Qed.

(** ** Collections *)

Lemma find_by_id_below {A} (n : N) (c : Collection A) :
  ids_below n c -> List.find (by_id n) c = None.
Proof.
  induction 1 as [|d c Hd _ IH]; simpl; [reflexivity|].
  assert (E : by_id n d = false) by (apply N.eqb_neq; unfold ObjectId in *; lia).
  now rewrite E.
Qed.

Lemma find_app {A} (f : A -> bool) (l l' : list A) :
  List.find f (l ++ l')
  = match List.find f l with Some x => Some x | None => List.find f l' end.
Proof.
  induction l as [|x l IH]; simpl; [reflexivity|].
  destruct (f x); [reflexivity|exact IH].
Qed.

Lemma find_by_id_last {A} (n : N) (c : Collection A) (a : A) :
  ids_below n c -> List.find (by_id n) (c ++ [(n, a)]) = Some (n, a).
Proof.
  intros H. rewrite find_app, (find_by_id_below n c H). simpl.
  unfold by_id. simpl. now rewrite N.eqb_refl.
Qed.

Lemma update_first_last {A} (n : N) (f : A -> A) (c : Collection A) (a : A) :
  ids_below n c ->
  update_first (by_id n) f (c ++ [(n, a)]) = c ++ [(n, f a)].
Proof.
  induction 1 as [|d c Hd _ IH]; simpl.
  - unfold by_id. simpl. now rewrite N.eqb_refl.
  - assert (E : by_id n d = false) by (apply N.eqb_neq; unfold ObjectId in *; lia).
    now rewrite E, IH.
Qed.

Lemma wf_empty : wf empty_db.
Proof. split; [reflexivity|constructor]. Qed.

Lemma wf_sink_down : wf sink_down_db.
Proof. split; [reflexivity|constructor]. Qed.

(** ** Checkout *)

#[local] Arguments str_of_oid : simpl never.
#[local] Arguments ObjectId_of_str : simpl never.
#[local] Arguments py_round2 : simpl never.
#[local] Arguments lower : simpl never.

(** The store operations, unfolded and computed. *)
Ltac store_ops :=
  unfold bind, lift, ret, raise, find_one, insert_one, update_one,
    create_document, get_documents; try unfold record; cbn.

Lemma accumulate_fits (items : list OrderItem.t) :
  quantities_fit items -> forall acc, exists total, accumulate items acc = Ok total.
Proof.
  induction 1 as [|it items Hit _ IH]; intros acc; simpl.
  - now exists acc.
  - destruct (float_of_int (OrderItem.quantity it)) as [q|]; [apply IH|easy].
Qed.

Lemma encodable_pending (payload : CheckoutRequest.t) (total : float) :
  quantities_int64 (CheckoutRequest.items payload) ->
  Order.encodable (pending_order payload total) = true.
Proof.
  intros H. apply forallb_forall. intros it Hin.
  unfold quantities_int64 in H. rewrite Forall_forall in H. now apply H.
Qed.

Lemma not_encodable_pending (payload : CheckoutRequest.t) (total : float) :
  ~ quantities_int64 (CheckoutRequest.items payload) ->
  Order.encodable (pending_order payload total) = false.
Proof.
  intros H. destruct (Order.encodable (pending_order payload total)) eqn:E;
    [|reflexivity].
  exfalso. apply H. apply Forall_forall. intros it Hin.
  unfold Order.encodable in E. rewrite forallb_forall in E. now apply E.
Qed.

Lemma checkout_run (payload : CheckoutRequest.t) (db : DB) (total : float) :
  accumulate (CheckoutRequest.items payload) 0%float = Ok total ->
  quantities_int64 (CheckoutRequest.items payload) ->
  wf db ->
  checkout payload db
  = if sink_up db
    then (Ok (CheckoutResponse.mk (str_of_oid (next_id db)) "paid"),
          notified_db payload total db)
    else (Raise PyMongoError, paid_db payload total db).
Proof.
  intros Hacc Hq [Hb Hids].
  unfold checkout, bind at 1, lift. rewrite Hacc.
  fold (pending_order payload total).
  unfold bind at 1, create_document, bind at 1, insert_one.
  cbn [encodes order_c]. rewrite (encodable_pending _ _ Hq).
  store_ops.
  rewrite (ObjectId_of_str_of_oid _ Hb). cbn.
  change (@by_key Order.t (Twelve (next_id db))) with (@by_id Order.t (next_id db)).
  rewrite find_by_id_last, update_first_last by exact Hids.
  unfold notified_db, paid_db, order_writes.
  destruct (sink_up db); unfold record; cbn; rewrite <- ?app_assoc; reflexivity.
Qed.

Lemma checkout_fails_early (payload : CheckoutRequest.t) (db : DB) (e : exn) :
  accumulate (CheckoutRequest.items payload) 0%float = Raise e ->
  checkout payload db = (Raise e, db).
Proof.
  intros Hacc. unfold checkout, bind at 1, lift. now rewrite Hacc.
Qed.

(** A quantity that does not convert stops the handler before anything
    is written. *)
Lemma accumulate_overflow (items : list OrderItem.t) (acc : float) :
  ~ quantities_fit items -> accumulate items acc = Raise OverflowError.
Proof.
  revert acc; induction items as [|it items IH]; intros acc Hnot; simpl.
  - exfalso. apply Hnot. constructor.
  - destruct (float_of_int (OrderItem.quantity it)) as [q|] eqn:E; [|reflexivity].
    apply IH. intros Hfit. apply Hnot. constructor; [now rewrite E|exact Hfit].
Qed.

Lemma checkout_overflow (payload : CheckoutRequest.t) (db : DB) :
  ~ quantities_fit (CheckoutRequest.items payload) ->
  checkout payload db = (Raise OverflowError, db).
Proof.
  intros H. apply checkout_fails_early. now apply accumulate_overflow.
Qed.

Lemma accumulate_raises (items : list OrderItem.t) (acc : float) (e : exn) :
  accumulate items acc = Raise e -> e = OverflowError.
Proof.
  revert acc; induction items as [|it items IH]; intros acc; simpl; [discriminate|].
  destruct (float_of_int (OrderItem.quantity it)) as [q|]; [apply IH|].
  now intros [= <-].
Qed.

Lemma int64_bounds (n : Z) : int64 n = true <-> - 2 ^ 63 <= n < 2 ^ 63.
Proof. unfold int64. rewrite andb_true_iff, Z.leb_le, Z.ltb_lt. tauto. Qed.

(** A quantity that fits eight bytes converts to a float. *)
Lemma quantities_int64_fit (items : list OrderItem.t) :
  quantities_int64 items -> quantities_fit items.
Proof.
  intros H. apply quantities_fit_bounded. eapply Forall_impl; [|exact H].
  intros it Hit. apply int64_bounds in Hit.
  apply Z.lt_le_trans with (2 ^ 64); [lia|].
  apply Z.pow_le_mono_r; lia.
Qed.

Lemma quantities_int64_dec (items : list OrderItem.t) :
  quantities_int64 items \/ ~ quantities_int64 items.
Proof.
  destruct (forallb (fun it => int64 (OrderItem.quantity it)) items) eqn:E.
  - left. apply Forall_forall. rewrite forallb_forall in E. exact E.
  - right. intros H. unfold quantities_int64 in H. rewrite Forall_forall in H.
    rewrite <- forallb_forall in H. congruence.
Qed.

(** A quantity that does not fit eight bytes stops the handler before
    anything is written: in the loop when it does not even convert to a
    float, and otherwise when the driver encodes the order. *)
Lemma checkout_unstorable (payload : CheckoutRequest.t) (db : DB) :
  ~ quantities_int64 (CheckoutRequest.items payload) ->
  checkout payload db = (Raise OverflowError, db).
Proof.
  intros H.
  destruct (accumulate (CheckoutRequest.items payload) 0%float) as [total|e] eqn:Hacc.
  - unfold checkout, bind at 1, lift. rewrite Hacc.
    fold (pending_order payload total).
    unfold bind at 1, create_document, bind at 1, insert_one.
    cbn [encodes order_c]. now rewrite (not_encodable_pending _ _ H).
  - rewrite (checkout_fails_early _ _ _ Hacc).
    now rewrite (accumulate_raises _ _ _ Hacc).
Qed.

(** *** The total *)

Lemma accumulate_line_totals (items : list OrderItem.t) (acc : float) :
  accumulate items acc
  = match line_totals items with
    | Ok l => Ok (fold_left PrimFloat.add l acc)
    | Raise e => Raise e
    end.
Proof.
  revert acc; induction items as [|it items IH]; intros acc; simpl; [reflexivity|].
  destruct (float_of_int (OrderItem.quantity it)) as [q|]; [|reflexivity].
  rewrite IH. now destruct (line_totals items).
Qed.

Lemma accumulate_sum_then_round (items : list OrderItem.t) (total : float) :
  accumulate items 0%float = Ok total -> sum_then_round items = Ok (py_round2 total).
Proof.
  rewrite accumulate_line_totals. unfold sum_then_round, running_sum.
  destruct (line_totals items); [|discriminate].
  now intros [= ->].
Qed.

(** The order [checkout] leaves in the store, whatever becomes of the
    notification. *)
Lemma checkout_persists (payload : CheckoutRequest.t) (db : DB) (total : float) :
  accumulate (CheckoutRequest.items payload) 0%float = Ok total ->
  quantities_int64 (CheckoutRequest.items payload) ->
  wf db ->
  List.find (by_id (next_id db)) (order (snd (checkout payload db)))
  = Some (next_id db, set_paid (pending_order payload total)).
Proof.
  intros Hacc Hq Hwf. rewrite (checkout_run _ _ _ Hacc Hq Hwf).
  destruct Hwf as [_ Hids].
  destruct (sink_up db); cbn; now apply find_by_id_last.
Qed.

(** Whatever order a checkout adds to the store is the one it built. *)
Lemma checkout_new_order (payload : CheckoutRequest.t) (db : DB)
  (d : ObjectId * Order.t) :
  wf db ->
  In d (order (snd (checkout payload db))) ->
  ~ In d (order db) ->
  exists total,
    accumulate (CheckoutRequest.items payload) 0%float = Ok total
    /\ d = (next_id db, set_paid (pending_order payload total)).
Proof.
  intros Hwf Hin Hnew.
  destruct (quantities_int64_dec (CheckoutRequest.items payload)) as [Hq|Hq];
    [|rewrite (checkout_unstorable _ _ Hq) in Hin; contradiction].
  destruct (accumulate (CheckoutRequest.items payload) 0%float) as [total|e] eqn:Hacc.
  - exists total. split; [reflexivity|].
    rewrite (checkout_run _ _ _ Hacc Hq Hwf) in Hin.
    assert (Hd : In d (order db ++ [(next_id db, set_paid (pending_order payload total))]))
      by (destruct (sink_up db); exact Hin).
    apply in_app_or in Hd. destruct Hd as [Hd|[Hd|[]]]; [contradiction|now symmetry].
  - rewrite (checkout_fails_early _ _ _ Hacc) in Hin. contradiction.
Qed.

(** C2.  For every checkout on a well-formed store, an order the
    checkout adds carries [round(sum(price * quantity), 2)] as its
    total: the lines are added up first and the sum is rounded once.
    Such an order is added whenever the quantities fit the eight bytes
    the store has for an integer; with any other quantity the checkout
    raises and adds no order.  For the lines [100.005 x 2] and [50 x 1] the total is [250.01].
    Rounding per line would give another total: for two lines of
    [0.004] the order's total is [0.01], where the rounded lines add up
    to [0.0]. *)
Theorem checkout_total_sum_then_round :
  (forall (payload : CheckoutRequest.t) (db : DB),
      wf db ->
      quantities_int64 (CheckoutRequest.items payload) ->
      exists (t : float) (o : Order.t),
        sum_then_round (CheckoutRequest.items payload) = Ok t
        /\ List.find (by_id (next_id db)) (order (snd (checkout payload db)))
           = Some (next_id db, o)
        /\ Order.items o = CheckoutRequest.items payload
        /\ Order.total o = t)
  /\ (forall (payload : CheckoutRequest.t) (db : DB),
        ~ quantities_int64 (CheckoutRequest.items payload) ->
        checkout payload db = (Raise OverflowError, db))
  /\ (forall (payload : CheckoutRequest.t) (db : DB) (d : ObjectId * Order.t),
        wf db ->
        In d (order (snd (checkout payload db))) ->
        ~ In d (order db) ->
        Order.items (snd d) = CheckoutRequest.items payload
        /\ sum_then_round (CheckoutRequest.items payload) = Ok (Order.total (snd d)))
  /\ (forall (slug p1 n1 p2 n2 : string) (customer : CustomerInfo.t) (db : DB),
        wf db ->
        exists o : Order.t,
          List.find (by_id (next_id db))
            (order (snd (checkout
                           (CheckoutRequest.mk slug (two_lines p1 n1 p2 n2) customer)
                           db)))
          = Some (next_id db, o)
          /\ Order.total o = 250.01%float)
  /\ (forall (slug : string) (customer : CustomerInfo.t) (db : DB),
        wf db ->
        exists o : Order.t,
          List.find (by_id (next_id db))
            (order (snd (checkout (CheckoutRequest.mk slug small_lines customer) db)))
          = Some (next_id db, o)
          /\ Order.total o = 0.01%float
          /\ round_then_sum small_lines = Ok 0%float).
Proof.
  split; [|split; [|split; [|split]]].
  - intros payload db Hwf Hq.
    destruct (accumulate_fits _ (quantities_int64_fit _ Hq) 0%float) as [total Hacc].
    exists (py_round2 total), (set_paid (pending_order payload total)).
    split; [now apply accumulate_sum_then_round|].
    split; [now apply checkout_persists|].
    split; reflexivity.
  - exact checkout_unstorable.
  - intros payload db d Hwf Hin Hnew.
    destruct (checkout_new_order _ _ _ Hwf Hin Hnew) as (total & Hacc & ->).
    split; [reflexivity|]. now apply accumulate_sum_then_round.
  - intros slug p1 n1 p2 n2 customer db Hwf.
    eexists. split.
    + apply checkout_persists with (total := 250.01%float); [| |exact Hwf].
      * vm_compute. reflexivity.
      * repeat constructor.
    + vm_compute. reflexivity.
  - intros slug customer db Hwf.
    eexists. split; [|split].
    + apply checkout_persists with (total := 0.008%float); [| |exact Hwf].
      * vm_compute. reflexivity.
      * repeat constructor.
    + vm_compute. reflexivity.
    + vm_compute. reflexivity.
Qed.

Lemma two_lines_int64 : quantities_int64 (two_lines "p1" "tea" "p2" "bread").
Proof. repeat constructor. Qed.

Lemma checkout_total_sum_then_round_witness :
  exists (t : float) (o : Order.t),
    sum_then_round (two_lines "p1" "tea" "p2" "bread") = Ok t
    /\ List.find (by_id 0%N)
         (order (snd (checkout
                        (CheckoutRequest.mk "shop" (two_lines "p1" "tea" "p2" "bread")
                           demo_customer)
                        empty_db)))
       = Some (0%N, o)
    /\ Order.items o = two_lines "p1" "tea" "p2" "bread"
    /\ Order.total o = t.
Proof.
  exact (proj1 checkout_total_sum_then_round
           (CheckoutRequest.mk "shop" (two_lines "p1" "tea" "p2" "bread") demo_customer)
           empty_db wf_empty two_lines_int64).
Defined.

(** *** Pending, then paid *)

(** C3.  For every checkout with valid items (quantities that fit the
    eight bytes the store has for an integer), on a well-formed store
    whose notification sink is up, the handler answers "paid" and the
    writes it makes are, in this order: the insert of the order with
    status "pending" and an empty mpesa map; one update, of the
    document under that order's id, to status "paid" and
    mpesa = {"status": "success"}; the insert of the notification.  The
    order carries the lowercased slug before and after the update.  Any
    order a checkout adds to a well-formed store ends up paid, whatever
    becomes of the notification.  The end-to-end scenario yields total
    60.0, status "paid", mpesa status "success" and store_slug
    "jane-shop", and its last three writes are those. *)
Theorem checkout_pending_then_paid :
  (forall (payload : CheckoutRequest.t) (db : DB),
      wf db ->
      sink_up db = true ->
      CheckoutRequest.valid payload = true ->
      quantities_int64 (CheckoutRequest.items payload) ->
      let oid := next_id db in
      exists (total : float) (db' : DB),
        let pending :=
          Order.mk (lower (CheckoutRequest.store_slug payload))
            (CheckoutRequest.items payload) (py_round2 total)
            (CheckoutRequest.customer payload) "pending" [] in
        let paid :=
          Order.mk (lower (CheckoutRequest.store_slug payload))
            (CheckoutRequest.items payload) (py_round2 total)
            (CheckoutRequest.customer payload) "paid" [("status", "success")] in
        sum_then_round (CheckoutRequest.items payload) = Ok (py_round2 total)
        /\ api_checkout payload db
           = (Ok (CheckoutResponse.mk (str_of_oid oid) "paid"), db')
        /\ writes db'
           = writes db
               ++ [Inserted oid (order_doc pending);
                   Updated oid (order_doc pending) (order_doc paid);
                   Inserted (N.succ oid)
                     (notification_doc
                        (order_notification payload total (str_of_oid oid)))]
        /\ order db' = order db ++ [(oid, paid)]
        /\ List.find (by_id oid) (order db') = Some (oid, paid))
  /\ (forall (payload : CheckoutRequest.t) (db : DB) (d : ObjectId * Order.t),
        wf db ->
        In d (order (snd (checkout payload db))) ->
        ~ In d (order db) ->
        fst d = next_id db
        /\ Order.status (snd d) = "paid"
        /\ Order.mpesa (snd d) = [("status", "success")]
        /\ Order.store_slug (snd d) = lower (CheckoutRequest.store_slug payload))
  /\ (forall validate_email : string -> option string,
        exists (order_id : string) (oid : ObjectId) (o : Order.t)
               (before : list Write) (n : Notification.t),
          fst (scenario validate_email) = Ok (CheckoutResponse.mk order_id "paid")
          /\ ObjectId_of_str order_id = Some (Twelve oid)
          /\ List.find (by_id oid) (order (snd (scenario validate_email)))
             = Some (oid, o)
          /\ Order.total o = 60%float
          /\ Order.status o = "paid"
          /\ Order.mpesa o = [("status", "success")]
          /\ Order.store_slug o = "jane-shop"
          /\ writes (snd (scenario validate_email))
             = before
                 ++ [Inserted oid
                       (order_doc
                          (Order.mk "jane-shop" (Order.items o) 60%float
                             (Order.customer o) "pending" []));
                     Updated oid
                       (order_doc
                          (Order.mk "jane-shop" (Order.items o) 60%float
                             (Order.customer o) "pending" []))
                       (order_doc o);
                     Inserted (N.succ oid) (notification_doc n)]).
Proof.
  split; [|split].
  - intros payload db Hwf Hsink Hvalid Hq oid.
    destruct (accumulate_fits _ (quantities_int64_fit _ Hq) 0%float) as [total Hacc].
    exists total, (notified_db payload total db).
    unfold api_checkout. rewrite Hvalid.
    rewrite (checkout_run _ _ _ Hacc Hq Hwf), Hsink.
    destruct Hwf as [Hb Hids].
    split; [now apply accumulate_sum_then_round|].
    split; [reflexivity|].
    split; [reflexivity|].
    split; [reflexivity|].
    cbn. now apply find_by_id_last.
  - intros payload db d Hwf Hin Hnew.
    destruct (checkout_new_order _ _ _ Hwf Hin Hnew) as (total & _ & ->).
    repeat split.
  - intros validate_email.
    exists "000000000000000000000003", 3%N. eexists. eexists. eexists.
    split; [vm_compute; reflexivity|].
    split; [vm_compute; reflexivity|].
    split; [vm_compute; reflexivity|].
    split; [vm_compute; reflexivity|].
    split; [vm_compute; reflexivity|].
    split; [vm_compute; reflexivity|].
    split; [vm_compute; reflexivity|].
    instantiate (2 := firstn 3 (writes (snd (scenario validate_email)))).
    vm_compute. reflexivity.
Qed.

Lemma mandazi_int64 : quantities_int64 (CheckoutRequest.items mandazi_request).
Proof. repeat constructor. Qed.

Lemma checkout_pending_then_paid_witness :
  exists (total : float) (db' : DB),
    api_checkout mandazi_request empty_db
    = (Ok (CheckoutResponse.mk (str_of_oid 0%N) "paid"), db')
    /\ writes db'
       = [Inserted 0%N
            (order_doc
               (Order.mk (lower "JANE-SHOP") (CheckoutRequest.items mandazi_request)
                  (py_round2 total) demo_customer "pending" []));
          Updated 0%N
            (order_doc
               (Order.mk (lower "JANE-SHOP") (CheckoutRequest.items mandazi_request)
                  (py_round2 total) demo_customer "pending" []))
            (order_doc
               (Order.mk (lower "JANE-SHOP") (CheckoutRequest.items mandazi_request)
                  (py_round2 total) demo_customer "paid" [("status", "success")]));
          Inserted 1%N
            (notification_doc
               (order_notification mandazi_request total (str_of_oid 0%N)))].
Proof.
  destruct (proj1 checkout_pending_then_paid mandazi_request empty_db
              wf_empty eq_refl eq_refl mandazi_int64)
    as (total & db' & _ & H1 & H2 & _).
  exists total, db'. split; assumption.
Defined.

(** *** What request validation lets through *)

(** C4, as stated, fails: a checkout with no items is answered "paid"
    and an order is created. *)
Lemma checkout_empty_items_accepted :
  fst (api_checkout empty_request empty_db)
  = Ok (CheckoutResponse.mk "000000000000000000000000" "paid")
  /\ order (snd (api_checkout empty_request empty_db))
     = [(0%N, Order.mk "jane-shop" [] 0%float demo_customer "paid"
                [("status", "success")])].
Proof. split; vm_compute; reflexivity. Qed.

(** C4, amended.  A checkout request whose items sequence is empty
    passes validation; on a well-formed store whose notification sink is
    up, checkout succeeds with status "paid" and adds one order with no
    items and total 0.0. *)
Theorem checkout_empty_items (payload : CheckoutRequest.t) (db : DB) :
  CheckoutRequest.items payload = [] ->
  wf db ->
  sink_up db = true ->
  exists db' : DB,
    api_checkout payload db
    = (Ok (CheckoutResponse.mk (str_of_oid (next_id db)) "paid"), db')
    /\ order db'
       = order db
           ++ [(next_id db,
                Order.mk (lower (CheckoutRequest.store_slug payload)) []
                  0%float (CheckoutRequest.customer payload)
                  "paid" [("status", "success")])].
Proof.
  intros Hitems Hwf Hsink.
  exists (notified_db payload 0%float db).
  unfold api_checkout, CheckoutRequest.valid. rewrite Hitems. cbn [forallb].
  rewrite (checkout_run payload db 0%float), Hsink;
    [|now rewrite Hitems|rewrite Hitems; constructor|exact Hwf].
  split; [reflexivity|].
  unfold notified_db, pending_order, set_paid. cbn. rewrite Hitems.
  reflexivity.
Qed.

Lemma checkout_empty_items_witness :
  exists db' : DB,
    api_checkout empty_request empty_db
    = (Ok (CheckoutResponse.mk (str_of_oid 0%N) "paid"), db')
    /\ order db'
       = [(0%N, Order.mk (lower "jane-shop") [] 0%float demo_customer "paid"
                  [("status", "success")])].
Proof.
  exact (checkout_empty_items empty_request empty_db eq_refl wf_empty eq_refl).
Defined.

(** C5, as stated, fails: an item with a negative price is accepted,
    and the order is created with a negative total. *)
Lemma checkout_negative_price_accepted :
  fst (api_checkout refund_request empty_db)
  = Ok (CheckoutResponse.mk "000000000000000000000000" "paid")
  /\ order (snd (api_checkout refund_request empty_db))
     = [(0%N, Order.mk "jane-shop" [OrderItem.mk "p" "Mandazi" (-5)%float 1]
                (-5)%float demo_customer "paid" [("status", "success")])].
Proof. split; vm_compute; reflexivity. Qed.

Lemma valid_false (payload : CheckoutRequest.t) (it : OrderItem.t) :
  In it (CheckoutRequest.items payload) ->
  OrderItem.quantity it < 1 ->
  CheckoutRequest.valid payload = false.
Proof.
  intros Hin Hq. unfold CheckoutRequest.valid.
  destruct (forallb OrderItem.valid (CheckoutRequest.items payload)) eqn:E;
    [|reflexivity].
  rewrite forallb_forall in E. specialize (E it Hin).
  unfold OrderItem.valid in E. lia.
Qed.

Lemma valid_true (payload : CheckoutRequest.t) :
  (forall it, In it (CheckoutRequest.items payload) -> 1 <= OrderItem.quantity it) ->
  CheckoutRequest.valid payload = true.
Proof.
  intros H. apply forallb_forall. intros it Hin.
  unfold OrderItem.valid. specialize (H it Hin). lia.
Qed.

(** C5, amended.  For every checkout request that contains an item
    with quantity < 1, request validation rejects the request and the
    store is left as it was, so no order is created. *)
Theorem checkout_rejects_quantity (payload : CheckoutRequest.t) (db : DB)
  (it : OrderItem.t) :
  In it (CheckoutRequest.items payload) ->
  OrderItem.quantity it < 1 ->
  api_checkout payload db = (Raise RequestValidationError, db).
Proof.
  intros Hin Hq. unfold api_checkout.
  now rewrite (valid_false payload it Hin Hq).
Qed.

(** The price of an item is not looked at: a request whose quantities
    are all at least 1 and fit eight bytes is answered "paid" whatever
    the sign of its prices. *)
Lemma checkout_any_price (payload : CheckoutRequest.t) (db : DB) :
  (forall it, In it (CheckoutRequest.items payload) -> 1 <= OrderItem.quantity it) ->
  quantities_int64 (CheckoutRequest.items payload) ->
  wf db ->
  sink_up db = true ->
  exists db' : DB,
    api_checkout payload db
    = (Ok (CheckoutResponse.mk (str_of_oid (next_id db)) "paid"), db').
Proof.
  intros H Hq Hwf Hsink. unfold api_checkout.
  rewrite (valid_true payload H).
  destruct (accumulate_fits _ (quantities_int64_fit _ Hq) 0%float) as [total Hacc].
  rewrite (checkout_run _ _ _ Hacc Hq Hwf), Hsink. eauto.
Qed.

Lemma checkout_rejects_quantity_witness :
  api_checkout zero_quantity_request empty_db = (Raise RequestValidationError, empty_db).
Proof.
  apply (checkout_rejects_quantity zero_quantity_request empty_db zero_quantity_item).
  - simpl. left. reflexivity.
  - simpl. lia.
Defined.

(** *** The notification sink *)

(** C6, as stated, fails: when the write to the notification sink
    raises, the checkout call raises too and returns no order. *)
Lemma checkout_fails_with_sink :
  fst (api_checkout mandazi_request sink_down_db) = Raise PyMongoError.
Proof. vm_compute. reflexivity. Qed.

(** C6, amended.  When the order has been persisted and marked paid
    (its quantities fit the eight bytes the store has for an integer)
    and the write to the notification sink then raises, the exception
    leaves the handler: the checkout call fails with it and returns
    nothing.  The order stays in the store with status "paid" and
    mpesa = {"status": "success"}: nothing is rolled back, the two
    writes to the order are the last the store has seen, and no
    notification is written. *)
Theorem checkout_sink_failure (payload : CheckoutRequest.t) (db : DB) :
  wf db ->
  quantities_int64 (CheckoutRequest.items payload) ->
  sink_up db = false ->
  exists (db' : DB) (o : Order.t) (total : float),
    checkout payload db = (Raise PyMongoError, db')
    /\ List.find (by_id (next_id db)) (order db') = Some (next_id db, o)
    /\ Order.status o = "paid"
    /\ Order.mpesa o = [("status", "success")]
    /\ notification db' = notification db
    /\ writes db'
       = writes db
           ++ [Inserted (next_id db) (order_doc (pending_order payload total));
               Updated (next_id db) (order_doc (pending_order payload total))
                 (order_doc o)].
Proof.
  intros Hwf Hq Hsink.
  destruct (accumulate_fits _ (quantities_int64_fit _ Hq) 0%float) as [total Hacc].
  exists (paid_db payload total db), (set_paid (pending_order payload total)), total.
  rewrite (checkout_run _ _ _ Hacc Hq Hwf), Hsink.
  destruct Hwf as [_ Hids].
  split; [reflexivity|].
  split; [cbn; now apply find_by_id_last|].
  repeat split.
Qed.

Lemma checkout_sink_failure_witness :
  exists (db' : DB) (o : Order.t),
    checkout mandazi_request sink_down_db = (Raise PyMongoError, db')
    /\ List.find (by_id 0%N) (order db') = Some (0%N, o)
    /\ Order.status o = "paid"
    /\ Order.mpesa o = [("status", "success")]
    /\ notification db' = [].
Proof.
  destruct (checkout_sink_failure mandazi_request sink_down_db
              wf_sink_down mandazi_int64 eq_refl)
    as (db' & o & total & H1 & H2 & H3 & H4 & H5 & _).
  exists db', o. repeat split; assumption.
Defined.

(** *** No store lookup *)

Lemma checkout_ignores_stores (payload : CheckoutRequest.t) (db : DB)
  (stores : Collection Store.t) :
  fst (checkout payload (set_docs store_c stores db)) = fst (checkout payload db).
Proof.
  unfold checkout, bind at 1 3, lift.
  destruct (accumulate (CheckoutRequest.items payload) 0%float) as [total|e];
    [|reflexivity].
  unfold create_document, insert_one, bind. cbn [encodes order_c].
  match goal with
  | |- context [Order.encodable ?o] => destruct (Order.encodable o)
  end; [|reflexivity].
  store_ops.
  destruct (ObjectId_of_str (str_of_oid (next_id db))) as [k|]; cbn; [|reflexivity].
  match goal with
  | |- context [List.find ?f ?l] => destruct (List.find f l)
  end; cbn; destruct (sink_up db); reflexivity.
Qed.

(** C10.  [checkout] never looks the store up: its outcome is the same
    whatever the store collection holds.  For every request with valid
    items (quantities that fit the eight bytes the store has for an
    integer), on a well-formed store whose notification sink is up and
    which has no Store with the lowercased slug, checkout succeeds with
    status "paid" and leaves an order that carries that slug, while
    still no such Store exists. *)
Theorem checkout_without_store :
  (forall (payload : CheckoutRequest.t) (db : DB) (stores : Collection Store.t),
      fst (checkout payload (set_docs store_c stores db)) = fst (checkout payload db))
  /\ (forall (payload : CheckoutRequest.t) (db : DB),
        CheckoutRequest.valid payload = true ->
        quantities_int64 (CheckoutRequest.items payload) ->
        wf db ->
        sink_up db = true ->
        List.find
          (fun d => Store.slug (snd d) =? lower (CheckoutRequest.store_slug payload))%string
          (store db) = None ->
        exists (db' : DB) (o : Order.t),
          api_checkout payload db
          = (Ok (CheckoutResponse.mk (str_of_oid (next_id db)) "paid"), db')
          /\ List.find (by_id (next_id db)) (order db') = Some (next_id db, o)
          /\ Order.store_slug o = lower (CheckoutRequest.store_slug payload)
          /\ Order.status o = "paid"
          /\ List.find
               (fun d => Store.slug (snd d) =? Order.store_slug o)%string
               (store db') = None).
Proof.
  split; [exact checkout_ignores_stores|].
  intros payload db Hvalid Hq Hwf Hsink Hnone.
  destruct (accumulate_fits _ (quantities_int64_fit _ Hq) 0%float) as [total Hacc].
  exists (notified_db payload total db), (set_paid (pending_order payload total)).
  unfold api_checkout. rewrite Hvalid.
  rewrite (checkout_run _ _ _ Hacc Hq Hwf), Hsink.
  destruct Hwf as [_ Hids].
  split; [reflexivity|].
  split; [cbn; now apply find_by_id_last|].
  repeat split. exact Hnone.
Qed.

Lemma checkout_without_store_witness :
  exists (db' : DB) (o : Order.t),
    api_checkout mandazi_request empty_db
    = (Ok (CheckoutResponse.mk (str_of_oid 0%N) "paid"), db')
    /\ List.find (by_id 0%N) (order db') = Some (0%N, o)
    /\ Order.store_slug o = lower "JANE-SHOP"
    /\ Order.status o = "paid"
    /\ List.find (fun d => Store.slug (snd d) =? Order.store_slug o)%string
         (store db') = None.
Proof.
  exact (proj2 checkout_without_store mandazi_request empty_db
           eq_refl mandazi_int64 wf_empty eq_refl eq_refl).
Defined.

(** ** Stores *)

Lemma create_store_duplicate (payload : CreateStoreRequest.t) (db : DB)
  (d : ObjectId * Store.t) :
  List.find (has_slug (CreateStoreRequest.slug payload)) (store db) = Some d ->
  create_store payload db = (Raise (HTTPException 400 "Store slug already exists"), db).
Proof.
  intros H. unfold create_store, ensure_unique_slug. store_ops.
  fold (has_slug (CreateStoreRequest.slug payload)). now rewrite H.
Qed.

Lemma find_fewer {A} (bs : list N) (c : Collection A) :
  List.find (by_key (Fewer bs)) c = None.
Proof. induction c as [|d c IH]; [reflexivity|exact IH]. Qed.

Lemma create_store_run (payload : CreateStoreRequest.t) (db : DB)
  (oid : ObjectId) (d : ObjectId * Seller.t) :
  List.find (has_slug (CreateStoreRequest.slug payload)) (store db) = None ->
  ObjectId_of_str (CreateStoreRequest.owner_id payload) = Some (Twelve oid) ->
  List.find (by_id oid) (seller db) = Some d ->
  create_store payload db
  = (Ok (str_of_oid (next_id db)),
     mkDB (seller db)
       (store db ++ [(next_id db, new_store payload (snd d))])
       (product db) (order db) (notification db)
       (N.succ (next_id db)) (sink_up db)
       (writes db ++ [Inserted (next_id db) (store_doc (new_store payload (snd d)))])).
Proof.
  intros Hslug Hoid Howner.
  unfold create_store, ensure_unique_slug, to_object_id. store_ops.
  fold (has_slug (CreateStoreRequest.slug payload)). rewrite Hslug. cbn.
  rewrite Hoid. cbn.
  change (@by_key Seller.t (Twelve oid)) with (@by_id Seller.t oid).
  rewrite Howner. destruct d as [i owner]. reflexivity.
Qed.

(** The three ways [create_store] fails; none writes. *)
Lemma create_store_raises (p : CreateStoreRequest.t) (db : DB) (e : exn) (db' : DB) :
  create_store p db = (Raise e, db') ->
  db' = db
  /\ (e = HTTPException 400 "Store slug already exists"
      \/ e = HTTPException 400 "Invalid id format"
      \/ e = HTTPException 404 "Owner not found").
Proof.
  unfold create_store, ensure_unique_slug, to_object_id. store_ops.
  destruct (List.find _ (store db)) as [d0|]; cbn.
  { intros [= <- <-]. auto. }
  destruct (ObjectId_of_str (CreateStoreRequest.owner_id p)) as [k|]; cbn.
  - destruct (List.find (by_key k) (seller db)) as [[i owner]|]; cbn;
      [discriminate|].
    intros [= <- <-]. auto.
  - intros [= <- <-]. auto.
Qed.

(** *** Slug uniqueness *)

(** C1, on the code: the uniqueness check looks the slug up as it was
    given, while the store is saved under the lowercased slug.  After
    [create_store] succeeded with slug "Jane-Shop", a second call with
    the same slug succeeds as well, and the store collection holds two
    stores with slug "jane-shop"; likewise for "jane-shop" followed by
    its case-variant "JANE-SHOP". *)
Theorem create_store_case_variant_twice (validate_email : string -> option string) :
  (fst (two_stores validate_email "Jane-Shop" "Jane-Shop") = Ok "000000000000000000000002"
   /\ stored_slugs (snd (two_stores validate_email "Jane-Shop" "Jane-Shop"))
      = ["jane-shop"; "jane-shop"])
  /\ (fst (two_stores validate_email "jane-shop" "JANE-SHOP") = Ok "000000000000000000000002"
      /\ stored_slugs (snd (two_stores validate_email "jane-shop" "JANE-SHOP"))
         = ["jane-shop"; "jane-shop"]).
Proof. repeat split; vm_compute; reflexivity. Qed.

(** Why: once the stored slugs are lowercase, the check cannot fire on
    a slug that has an uppercase letter. *)
Lemma ensure_unique_slug_mixed_case (slug : string) (db : DB) :
  slugs_lower db ->
  lower slug <> slug ->
  ensure_unique_slug slug db = (Ok tt, db).
Proof.
  intros Hlow Hmixed. unfold ensure_unique_slug. store_ops.
  destruct (List.find _ (store db)) as [d|] eqn:E; [|reflexivity].
  apply find_some in E. destruct E as [Hin Heq].
  unfold slugs_lower in Hlow. rewrite Forall_forall in Hlow.
  specialize (Hlow d Hin). apply String.eqb_eq in Heq. congruence.
Qed.

(** A successful [create_store] passed the three checks and appended
    the store it built. *)
Lemma create_store_ok_inv (p : CreateStoreRequest.t) (db : DB)
  (store_id : string) (db' : DB) :
  create_store p db = (Ok store_id, db') ->
  exists oid d,
    List.find (has_slug (CreateStoreRequest.slug p)) (store db) = None
    /\ ObjectId_of_str (CreateStoreRequest.owner_id p) = Some (Twelve oid)
    /\ List.find (by_id oid) (seller db) = Some d
    /\ seller db' = seller db
    /\ store db' = store db ++ [(next_id db, new_store p (snd d))].
Proof.
  intros H.
  destruct (List.find (has_slug (CreateStoreRequest.slug p)) (store db))
    as [d0|] eqn:Hslug.
  { rewrite (create_store_duplicate _ _ _ Hslug) in H. discriminate. }
  revert H. unfold create_store, ensure_unique_slug, to_object_id. store_ops.
  fold (has_slug (CreateStoreRequest.slug p)). rewrite Hslug. cbn.
  destruct (ObjectId_of_str (CreateStoreRequest.owner_id p)) as [[oid|bs]|];
    cbn; [| |discriminate].
  - change (@by_key Seller.t (Twelve oid)) with (@by_id Seller.t oid).
    destruct (List.find (by_id oid) (seller db)) as [[i owner]|] eqn:Howner;
      cbn; [|discriminate].
    intros [= _ <-]. exists oid, (i, owner). cbn. repeat split. exact Howner.
  - rewrite find_fewer. cbn. discriminate.
Qed.

(** What the check does catch: the slug exactly as a stored one. *)
Lemma create_store_twice_lowercase (p1 p2 : CreateStoreRequest.t) (db : DB)
  (store_id : string) (db' : DB) :
  create_store p1 db = (Ok store_id, db') ->
  CreateStoreRequest.slug p2 = lower (CreateStoreRequest.slug p1) ->
  create_store p2 db' = (Raise (HTTPException 400 "Store slug already exists"), db').
Proof.
  intros H1 Hslug.
  destruct (create_store_ok_inv _ _ _ _ H1) as (oid & d & _ & _ & _ & _ & Hstore).
  destruct (List.find (has_slug (CreateStoreRequest.slug p2)) (store db')) as [d'|] eqn:E.
  - now apply create_store_duplicate with (d := d').
  - exfalso.
    assert (Hin : In (next_id db, new_store p1 (snd d)) (store db'))
      by (rewrite Hstore; apply in_or_app; right; now left).
    apply (find_none _ _ E) in Hin.
    unfold has_slug in Hin. cbn in Hin. rewrite Hslug, String.eqb_refl in Hin.
    discriminate.
Qed.

(** What it misses: once the stored slugs are lowercase, a request
    whose slug has an uppercase letter and that succeeded succeeds
    again when repeated, and the two stores share their slug. *)
Lemma create_store_repeat_mixed_case (p : CreateStoreRequest.t) (db : DB)
  (store_id : string) (db' : DB) :
  slugs_lower db ->
  lower (CreateStoreRequest.slug p) <> CreateStoreRequest.slug p ->
  create_store p db = (Ok store_id, db') ->
  exists (db'' : DB) (s1 s2 : Store.t),
    create_store p db' = (Ok (str_of_oid (next_id db')), db'')
    /\ store db'' = store db ++ [(next_id db, s1); (next_id db', s2)]
    /\ Store.slug s1 = lower (CreateStoreRequest.slug p)
    /\ Store.slug s2 = lower (CreateStoreRequest.slug p).
Proof.
  intros Hlow Hmixed H1.
  destruct (create_store_ok_inv _ _ _ _ H1)
    as (oid & d & _ & Hoid & Howner & Hseller & Hstore).
  assert (Hlow' : slugs_lower db').
  { unfold slugs_lower in *. rewrite Hstore. apply Forall_app. split; [exact Hlow|].
    constructor; [apply lower_idem|constructor]. }
  assert (Hslug' : List.find (has_slug (CreateStoreRequest.slug p)) (store db') = None).
  { destruct (List.find _ (store db')) as [d'|] eqn:E; [|reflexivity].
    apply find_some in E. destruct E as [Hin Heq].
    unfold slugs_lower in Hlow'. rewrite Forall_forall in Hlow'.
    specialize (Hlow' d' Hin). apply String.eqb_eq in Heq. congruence. }
  rewrite <- Hseller in Howner.
  rewrite (create_store_run _ _ _ _ Hslug' Hoid Howner).
  eexists _, (new_store p (snd d)), (new_store p (snd d)).
  split; [reflexivity|]. cbn. rewrite Hstore, <- app_assoc. repeat split.
Qed.

Example get_store_any_case (validate_email : string -> option string) :
  fst (get_store "JANE-SHOP" (snd (two_stores validate_email "Jane-Shop" "Jane-Shop")))
  = Ok ("000000000000000000000001",
        Store.mk "000000000000000000000000" "Jane Shop" "jane-shop" None
          (Some "254700000000") None).
Proof. vm_compute. reflexivity. Qed.

(** *** The store's WhatsApp number *)

(** C7, as stated, fails: an explicitly supplied empty string is a
    supplied value, yet the store gets the owner's number. *)
Lemma create_store_blank_whatsapp :
  fst (create_store blank_whatsapp_request jane_db) = Ok "000000000000000000000001"
  /\ map (fun d => Store.whatsapp_number (snd d))
       (store (snd (create_store blank_whatsapp_request jane_db)))
     = [Some "254722222222"].
Proof. split; vm_compute; reflexivity. Qed.

(** C7, amended.  For every successful createStore, the persisted
    Store's whatsapp_number is the explicitly supplied value when one
    was given and is not the empty string, else the owner Seller's
    whatsapp_number when present and not the empty string, else the
    owner's phone. *)
Theorem create_store_whatsapp (payload : CreateStoreRequest.t) (db : DB)
  (store_id : string) (db' : DB) :
  create_store payload db = (Ok store_id, db') ->
  let given := CreateStoreRequest.whatsapp_number payload in
  exists (oid : ObjectId) (i : ObjectId) (owner : Seller.t) (st : Store.t),
    ObjectId_of_str (CreateStoreRequest.owner_id payload) = Some (Twelve oid)
    /\ List.find (by_id oid) (seller db) = Some (i, owner)
    /\ store db' = store db ++ [(next_id db, st)]
    /\ Store.slug st = lower (CreateStoreRequest.slug payload)
    /\ (forall w, given = Some w -> w <> EmptyString ->
                  Store.whatsapp_number st = Some w)
    /\ (given = None \/ given = Some EmptyString ->
        forall w, Seller.whatsapp_number owner = Some w -> w <> EmptyString ->
                  Store.whatsapp_number st = Some w)
    /\ (given = None \/ given = Some EmptyString ->
        Seller.whatsapp_number owner = None
        \/ Seller.whatsapp_number owner = Some EmptyString ->
        Store.whatsapp_number st = Some (Seller.phone owner)).
Proof.
  intros Hok given.
  destruct (create_store_ok_inv _ _ _ _ Hok)
    as (oid & [i owner] & _ & Hoid & Howner & _ & Hstore).
  exists oid, i, owner, (new_store payload owner).
  split; [exact Hoid|].
  split; [exact Howner|].
  split; [exact Hstore|].
  split; [reflexivity|].
  unfold new_store. cbn [Store.whatsapp_number]. fold given.
  split; [|split].
  - intros w -> Hw. destruct w; [contradiction|reflexivity].
  - intros Hg w Hown Hw. rewrite Hown.
    destruct Hg as [-> | ->]; destruct w; try contradiction; reflexivity.
  - intros Hg Hown.
    destruct Hg as [-> | ->]; destruct Hown as [-> | ->]; reflexivity.
Qed.

Lemma create_store_whatsapp_witness :
  exists st : Store.t,
    store (snd (create_store blank_whatsapp_request jane_db)) = [(1%N, st)]
    /\ Store.whatsapp_number st = Some "254722222222".
Proof.
  destruct (create_store_whatsapp blank_whatsapp_request jane_db
              "000000000000000000000001"
              (snd (create_store blank_whatsapp_request jane_db)))
    as (oid & i & owner & st & _ & Howner & Hstore & _ & _ & Hown & _).
  - vm_compute. reflexivity.
  - exists st. split; [exact Hstore|].
    assert (Hjane : owner = jane).
    { vm_compute in Howner. destruct oid; [|discriminate].
      now injection Howner as _ <-. }
    subst owner. apply Hown; [right; reflexivity|reflexivity|discriminate].
Defined.

(** ** Products *)

Lemma create_product_not_found (payload : CreateProductRequest.t) (db : DB) :
  List.find (has_slug (lower (CreateProductRequest.store_slug payload))) (store db)
  = None ->
  create_product payload db = (Raise (HTTPException 404 "Store not found"), db).
Proof.
  intros H. unfold create_product. store_ops.
  fold (has_slug (lower (CreateProductRequest.store_slug payload))).
  now rewrite H.
Qed.

Lemma create_product_found (payload : CreateProductRequest.t) (db : DB)
  (d : ObjectId * Store.t) :
  List.find (has_slug (lower (CreateProductRequest.store_slug payload))) (store db)
  = Some d ->
  create_product payload db
  = if (0 <=? CreateProductRequest.price payload)%float
    then (Ok (str_of_oid (next_id db)),
          mkDB (seller db) (store db)
            (product db ++ [(next_id db, new_product payload)])
            (order db) (notification db) (N.succ (next_id db)) (sink_up db)
            (writes db ++ [Inserted (next_id db) (product_doc (new_product payload))]))
    else (Raise ValidationError, db).
Proof.
  intros H. unfold create_product, bind at 1, find_one. cbn.
  fold (has_slug (lower (CreateProductRequest.store_slug payload))).
  rewrite H. unfold bind, lift, Product_new.
  destruct (0 <=? CreateProductRequest.price payload)%float; reflexivity.
Qed.

(** C9, as stated, fails: the store exists, yet [create_product] does
    not succeed, because the [Product] model refuses a negative price;
    nothing is persisted. *)
Lemma create_product_negative_price :
  create_product negative_price_request shop_db = (Raise ValidationError, shop_db).
Proof. vm_compute. reflexivity. Qed.

(** C9, amended.  For every createProduct call: if the lowercased
    store_slug does not resolve to an existing Store the call fails
    with NotFound (404) and the store is left as it was; if it resolves
    and the price is at least 0, the call succeeds and the persisted
    Product has is_active = true and the lowercased store_slug; if it
    resolves and the price is not at least 0, the Product model raises
    a validation error and nothing is persisted. *)
Theorem create_product_outcomes (payload : CreateProductRequest.t) (db : DB) :
  let slug := lower (CreateProductRequest.store_slug payload) in
  (List.find (has_slug slug) (store db) = None ->
   create_product payload db = (Raise (HTTPException 404 "Store not found"), db))
  /\ (forall d, List.find (has_slug slug) (store db) = Some d ->
        (0 <=? CreateProductRequest.price payload)%float = true ->
        exists (db' : DB) (p : Product.t),
          create_product payload db = (Ok (str_of_oid (next_id db)), db')
          /\ product db' = product db ++ [(next_id db, p)]
          /\ Product.is_active p = true
          /\ Product.store_slug p = slug
          /\ lower (Product.store_slug p) = Product.store_slug p)
  /\ (forall d, List.find (has_slug slug) (store db) = Some d ->
        (0 <=? CreateProductRequest.price payload)%float = false ->
        create_product payload db = (Raise ValidationError, db)).
Proof.
  intros slug. split; [|split].
  - apply create_product_not_found.
  - intros d Hd Hprice. rewrite (create_product_found _ _ _ Hd), Hprice.
    eexists _, (new_product payload).
    repeat split. cbn. apply lower_idem.
  - intros d Hd Hprice. now rewrite (create_product_found _ _ _ Hd), Hprice.
Qed.

Lemma create_product_outcomes_witness :
  exists (db' : DB) (p : Product.t),
    create_product mandazi_product shop_db = (Ok (str_of_oid 2%N), db')
    /\ product db' = [(2%N, p)]
    /\ Product.is_active p = true
    /\ Product.store_slug p = lower "Jane-Shop"
    /\ lower (Product.store_slug p) = Product.store_slug p.
Proof.
  exact (proj1 (proj2 (create_product_outcomes mandazi_product shop_db))
           (1%N, shop) eq_refl eq_refl).
Defined.

(** *** The filter of the listing *)

Lemma list_products_run (slug : string) (db : DB) :
  list_products slug db
  = (Ok (map (fun it => (str_of_oid (fst it), snd it))
           (filter (active_in (lower slug)) (product db))),
     db).
Proof. reflexivity. Qed.

Lemma active_in_spec (slug : string) (d : ObjectId * Product.t) :
  active_in slug d = true
  <-> Product.store_slug (snd d) = slug /\ Product.is_active (snd d) = true.
Proof.
  unfold active_in. rewrite andb_true_iff, String.eqb_eq.
  destruct (Product.is_active (snd d)); simpl; intuition congruence.
Qed.

Lemma filter_none {A} (f : A -> bool) (l : list A) :
  (forall x, In x l -> f x = false) -> filter f l = [].
Proof.
  induction l as [|x l IH]; intros H; simpl; [reflexivity|].
  rewrite (H x (or_introl eq_refl)). apply IH. intros y Hy. apply H. now right.
Qed.

(** ** Invariants of the reachable states *)

Section ReachableFacts.

Variable validate_email : string -> option string.

Lemma signup_frame p db :
  let db' := snd (signup validate_email p db) in
  store db' = store db /\ product db' = product db /\ order db' = order db
  /\ (next_id db <= next_id db')%N.
Proof.
  unfold signup, bind, lift, create_document, insert_one, ret.
  destruct (Seller_new _ _ _ _ _); cbn; repeat split; lia.
Qed.

Lemma create_store_frame p db :
  let db' := snd (create_store p db) in
  (exists l, store db' = store db ++ l
             /\ Forall (fun d => lower (Store.slug (snd d)) = Store.slug (snd d)) l)
  /\ product db' = product db
  /\ order db' = order db /\ (next_id db <= next_id db')%N.
Proof.
  assert (Hsame : (exists l : Collection Store.t,
                      store db = store db ++ l
                      /\ Forall (fun d => lower (Store.slug (snd d)) = Store.slug (snd d)) l)
                  /\ product db = product db /\ order db = order db
                  /\ (next_id db <= next_id db)%N).
  { split; [exists []; split; [now rewrite app_nil_r|constructor]|repeat split; lia]. }
  unfold create_store, ensure_unique_slug, to_object_id. store_ops.
  destruct (List.find _ (store db)); cbn; [exact Hsame|].
  destruct (ObjectId_of_str _); cbn; [|exact Hsame].
  destruct (List.find _ (seller db)) as [[i owner]|]; cbn; [|exact Hsame].
  split; [|repeat split; lia].
  eexists. split; [reflexivity|].
  constructor; [apply lower_idem|constructor].
Qed.

Lemma get_store_frame slug db : snd (get_store slug db) = db.
Proof.
  unfold get_store. store_ops.
  now destruct (List.find _ (store db)) as [[i s]|].
Qed.

Lemma create_product_frame p db :
  let db' := snd (create_product p db) in
  store db' = store db /\ order db' = order db /\ (next_id db <= next_id db')%N.
Proof.
  destruct (List.find (has_slug (lower (CreateProductRequest.store_slug p))) (store db))
    as [d|] eqn:E.
  - rewrite (create_product_found _ _ _ E).
    destruct (0 <=? CreateProductRequest.price p)%float; cbn; repeat split; lia.
  - rewrite (create_product_not_found _ _ E). cbn. repeat split; lia.
Qed.

Lemma ids_below_mono {A} (n n' : N) (c : Collection A) :
  (n <= n')%N -> ids_below n c -> ids_below n' c.
Proof.
  intros Hle H. eapply Forall_impl; [|exact H].
  intros d Hd. cbv beta in Hd. unfold ObjectId in *. lia.
Qed.

Lemma ids_below_update_first {A} (n : N) (flt : ObjectId * A -> bool)
  (f : A -> A) (c : Collection A) :
  ids_below n c -> ids_below n (update_first flt f c).
Proof.
  induction 1 as [|d c Hd Hc IH]; simpl; [constructor|].
  destruct (flt d); constructor; assumption.
Qed.

Lemma checkout_frame p db :
  let db' := snd (api_checkout p db) in
  store db' = store db /\ product db' = product db
  /\ (ids_below (next_id db) (order db) -> ids_below (next_id db') (order db')).
Proof.
  unfold api_checkout. destruct (CheckoutRequest.valid p); [|repeat split; easy].
  unfold checkout, bind at 1 3, lift.
  destruct (accumulate (CheckoutRequest.items p) 0%float) as [total|e];
    [|repeat split; easy].
  unfold create_document, bind, insert_one. cbn [encodes order_c].
  match goal with
  | |- context [Order.encodable ?o] => destruct (Order.encodable o)
  end; [|repeat split; easy].
  store_ops.
  assert (Hnew : forall o : Order.t,
             ids_below (next_id db) (order db) ->
             ids_below (N.succ (next_id db)) (order db ++ [(next_id db, o)])).
  { intros o H. apply Forall_app. split.
    - apply (ids_below_mono (next_id db)); [lia|exact H].
    - constructor; [cbn; lia|constructor]. }
  destruct (ObjectId_of_str (str_of_oid (next_id db))) as [k|]; cbn;
    [|repeat split; now apply Hnew].
  match goal with
  | |- context [List.find ?f ?l] => destruct (List.find f l)
  end; cbn; destruct (sink_up db); cbn; repeat split; intros H;
    try (apply (ids_below_mono (N.succ (next_id db))); [lia|]);
    apply ids_below_update_first; now apply Hnew.
Qed.

Lemma products_resolve_frame db db' :
  (exists l, store db' = store db ++ l) ->
  product db' = product db ->
  products_resolve db -> products_resolve db'.
Proof.
  intros [l Hs] Hp H. unfold products_resolve in *. rewrite Hp, Hs.
  eapply Forall_impl; [|exact H].
  intros d (s & Hin & Heq). exists s. split; [|exact Heq].
  apply in_or_app. now left.
Qed.

Lemma create_product_resolve p db :
  products_resolve db -> products_resolve (snd (create_product p db)).
Proof.
  intros H.
  destruct (List.find (has_slug (lower (CreateProductRequest.store_slug p))) (store db))
    as [d|] eqn:E.
  - rewrite (create_product_found _ _ _ E).
    destruct (0 <=? CreateProductRequest.price p)%float; [|exact H].
    unfold products_resolve in *. cbn. apply Forall_app. split; [exact H|].
    constructor; [|constructor].
    apply find_some in E. destruct E as [Hin Heq].
    exists d. split; [exact Hin|]. now apply String.eqb_eq in Heq.
  - now rewrite (create_product_not_found _ _ E).
Qed.

Lemma step_products_resolve db db' :
  step validate_email db db' -> products_resolve db -> products_resolve db'.
Proof.
  intros Hstep H. destruct Hstep.
  - destruct (signup_frame p db) as (Hs & Hp & _).
    apply (products_resolve_frame db); [exists []; now rewrite app_nil_r| |]; easy.
  - destruct (create_store_frame p db) as ((l & Hs & _) & Hp & _).
    apply (products_resolve_frame db); [now exists l| |]; easy.
  - now rewrite get_store_frame.
  - now apply create_product_resolve.
  - exact H.
  - destruct (checkout_frame p db) as (Hs & Hp & _).
    apply (products_resolve_frame db); [exists []; now rewrite app_nil_r| |]; easy.
  - exact H.
Qed.

Lemma reachable_products_resolve db : reachable validate_email db -> products_resolve db.
Proof.
  induction 1 as [b|db db' _ IH Hstep]; [constructor|].
  now apply (step_products_resolve db).
Qed.

Lemma step_order_ids db db' :
  step validate_email db db' ->
  ids_below (next_id db) (order db) -> ids_below (next_id db') (order db').
Proof.
  intros Hstep H. destruct Hstep.
  - destruct (signup_frame p db) as (_ & _ & Ho & Hn).
    rewrite Ho. now apply (ids_below_mono (next_id db)).
  - destruct (create_store_frame p db) as (_ & _ & Ho & Hn).
    rewrite Ho. now apply (ids_below_mono (next_id db)).
  - now rewrite get_store_frame.
  - destruct (create_product_frame p db) as (_ & Ho & Hn).
    rewrite Ho. now apply (ids_below_mono (next_id db)).
  - exact H.
  - now apply checkout_frame.
  - exact H.
Qed.

(** A reachable state is well-formed as long as identifiers are left. *)
Lemma reachable_wf db : reachable validate_email db -> (next_id db < 2 ^ 96)%N -> wf db.
Proof.
  intros Hreach Hb. split; [exact Hb|].
  clear Hb. induction Hreach as [b|db db' _ IH Hstep]; [constructor|].
  now apply (step_order_ids db).
Qed.

Lemma step_slugs_lower db db' :
  step validate_email db db' -> slugs_lower db -> slugs_lower db'.
Proof.
  intros Hstep H. unfold slugs_lower in *. destruct Hstep.
  - destruct (signup_frame p db) as (Hs & _). now rewrite Hs.
  - destruct (create_store_frame p db) as ((l & Hs & Hl) & _).
    rewrite Hs. apply Forall_app. now split.
  - now rewrite get_store_frame.
  - destruct (create_product_frame p db) as (Hs & _). now rewrite Hs.
  - exact H.
  - destruct (checkout_frame p db) as (Hs & _). now rewrite Hs.
  - exact H.
Qed.

Lemma reachable_slugs_lower db : reachable validate_email db -> slugs_lower db.
Proof.
  induction 1 as [b|db db' _ IH Hstep]; [constructor|].
  now apply (step_slugs_lower db).
Qed.

(** In no reachable state does the uniqueness check stop a slug that
    has an uppercase letter, whatever stores exist. *)
Lemma create_store_mixed_case_unchecked (p : CreateStoreRequest.t) db :
  reachable validate_email db ->
  lower (CreateStoreRequest.slug p) <> CreateStoreRequest.slug p ->
  fst (create_store p db) <> Raise (HTTPException 400 "Store slug already exists").
Proof.
  intros Hreach Hmixed.
  pose proof (ensure_unique_slug_mixed_case _ db
                (reachable_slugs_lower db Hreach) Hmixed) as Hu.
  unfold create_store, bind at 1. rewrite Hu.
  unfold to_object_id. store_ops.
  destruct (ObjectId_of_str _); cbn; [|discriminate].
  destruct (List.find _ (seller db)) as [[i owner]|]; cbn; discriminate.
Qed.

End ReachableFacts.

(** ** Listing *)

(** C8.  For every slug and every state of the store, [list_products]
    raises nothing and returns exactly the products whose store_slug is
    the lowercased slug and whose is_active is true, so none with
    is_active = false.  When no Store has that slug, the sequence is
    empty: products name existing stores, as they do in every state the
    API reaches. *)
Theorem list_products_only_active (store_slug : string) (db : DB) :
  exists items : list (string * Product.t),
    list_products store_slug db = (Ok items, db)
    /\ (forall it, In it items ->
          Product.is_active (snd it) = true
          /\ Product.store_slug (snd it) = lower store_slug)
    /\ (forall oid p, In (oid, p) (product db) ->
          Product.is_active p = true ->
          Product.store_slug p = lower store_slug ->
          In (str_of_oid oid, p) items)
    /\ (products_resolve db ->
        List.find (has_slug (lower store_slug)) (store db) = None ->
        items = [])
    /\ (forall validate_email, reachable validate_email db ->
        List.find (has_slug (lower store_slug)) (store db) = None ->
        items = []).
Proof.
  eexists. split; [apply list_products_run|].
  assert (Hempty : products_resolve db ->
                   List.find (has_slug (lower store_slug)) (store db) = None ->
                   map (fun it : ObjectId * Product.t => (str_of_oid (fst it), snd it))
                     (filter (active_in (lower store_slug)) (product db)) = []).
  { intros Hres Hnone. rewrite filter_none; [reflexivity|].
    intros d Hin. destruct (active_in (lower store_slug) d) eqn:E; [|reflexivity].
    apply active_in_spec in E. destruct E as [Hslug _].
    unfold products_resolve in Hres. rewrite Forall_forall in Hres.
    destruct (Hres d Hin) as (s & Hs & Heq).
    apply (find_none _ _ Hnone) in Hs. unfold has_slug in Hs.
    rewrite Heq, Hslug, String.eqb_refl in Hs. discriminate. }
  split; [|split; [|split]].
  - intros it Hin. apply in_map_iff in Hin. destruct Hin as (d & <- & Hd).
    apply filter_In in Hd. destruct Hd as [_ Hd].
    apply active_in_spec in Hd. cbn. tauto.
  - intros oid p Hin Hact Hslug. apply in_map_iff. exists (oid, p).
    split; [reflexivity|]. apply filter_In. split; [exact Hin|].
    apply active_in_spec. now split.
  - exact Hempty.
  - intros validate_email Hreach. apply Hempty.
    now apply (reachable_products_resolve validate_email).
Qed.

Example list_products_catalog :
  fst (list_products "JANE-SHOP" catalog_db)
  = Ok [("000000000000000000000002",
         Product.mk "jane-shop" "Mandazi" 20%float None None true)].
Proof. vm_compute. reflexivity. Qed.

Lemma catalog_resolves : products_resolve catalog_db.
Proof.
  repeat constructor; exists (1%N, shop); split; try reflexivity; now left.
Qed.

Lemma list_products_only_active_witness :
  list_products "ghost" catalog_db = (Ok [], catalog_db).
Proof.
  destruct (list_products_only_active "ghost" catalog_db)
    as (items & Hrun & _ & _ & Hempty & _).
  rewrite Hrun. f_equal. f_equal.
  apply Hempty; [exact catalog_resolves|reflexivity].
Defined.

(** * Further properties of the handlers *)

(** ** Opening a store *)

(** X2.  [create_store] checks the slug first, then the form of the
    owner's identifier, then the owner: a taken slug is reported even
    when the owner's identifier is malformed, and a malformed
    identifier before a missing owner.  An identifier of 24 characters
    that [bytes.fromhex] reads as fewer than twelve bytes is not
    malformed: it finds no owner.  Whenever [create_store] fails it has
    raised one of these three errors and has written nothing. *)
Theorem create_store_failures (p : CreateStoreRequest.t) (db : DB) :
  (forall d,
      List.find (has_slug (CreateStoreRequest.slug p)) (store db) = Some d ->
      create_store p db
      = (Raise (HTTPException 400 "Store slug already exists"), db))
  /\ (List.find (has_slug (CreateStoreRequest.slug p)) (store db) = None ->
      ObjectId_of_str (CreateStoreRequest.owner_id p) = None ->
      create_store p db = (Raise (HTTPException 400 "Invalid id format"), db))
  /\ (forall k,
        List.find (has_slug (CreateStoreRequest.slug p)) (store db) = None ->
        ObjectId_of_str (CreateStoreRequest.owner_id p) = Some k ->
        List.find (by_key k) (seller db) = None ->
        create_store p db = (Raise (HTTPException 404 "Owner not found"), db))
  /\ (forall bs,
        List.find (has_slug (CreateStoreRequest.slug p)) (store db) = None ->
        ObjectId_of_str (CreateStoreRequest.owner_id p) = Some (Fewer bs) ->
        create_store p db = (Raise (HTTPException 404 "Owner not found"), db))
  /\ (forall e db',
        create_store p db = (Raise e, db') ->
        db' = db
        /\ (e = HTTPException 400 "Store slug already exists"
            \/ e = HTTPException 400 "Invalid id format"
            \/ e = HTTPException 404 "Owner not found")).
Proof.
  assert (Hmissing : forall k,
            List.find (has_slug (CreateStoreRequest.slug p)) (store db) = None ->
            ObjectId_of_str (CreateStoreRequest.owner_id p) = Some k ->
            List.find (by_key k) (seller db) = None ->
            create_store p db = (Raise (HTTPException 404 "Owner not found"), db)).
  { intros k Hslug Hoid Hown.
    unfold create_store, ensure_unique_slug, to_object_id. store_ops.
    fold (has_slug (CreateStoreRequest.slug p)). rewrite Hslug. cbn.
    rewrite Hoid. cbn. now rewrite Hown. }
  split; [|split; [|split; [|split]]].
  - intros d. apply create_store_duplicate.
  - intros Hslug Hoid.
    unfold create_store, ensure_unique_slug, to_object_id. store_ops.
    fold (has_slug (CreateStoreRequest.slug p)). rewrite Hslug. cbn.
    now rewrite Hoid.
  - exact Hmissing.
  - intros bs Hslug Hoid. apply (Hmissing (Fewer bs) Hslug Hoid). apply find_fewer.
  - apply create_store_raises.
Qed.

Lemma create_store_failures_witness :
  create_store taken_slug_bad_owner shop_db
  = (Raise (HTTPException 400 "Store slug already exists"), shop_db).
Proof.
  apply (proj1 (create_store_failures taken_slug_bad_owner shop_db) (1%N, shop)).
  reflexivity.
Defined.

Example create_store_spaced_owner :
  ObjectId_of_str "00 00 00 00 00 00 00 00 " = Some (Fewer [0; 0; 0; 0; 0; 0; 0; 0]%N)
  /\ create_store
       (CreateStoreRequest.mk "00 00 00 00 00 00 00 00 " "Jane Shop" "jane-shop"
          None None)
       jane_db
     = (Raise (HTTPException 404 "Owner not found"), jane_db).
Proof. split; vm_compute; reflexivity. Qed.

(** ** Signing up, then opening a store *)

Lemma signup_run (validate_email : string -> option string) (p : SignupRequest.t) (db : DB) :
  signup validate_email p db
  = match SignupRequest.email p with
    | Some e =>
        match validate_email e with
        | Some address =>
            (Ok (str_of_oid (next_id db)),
             mkDB (seller db
                     ++ [(next_id db,
                          Seller.mk (SignupRequest.name p) (Some address)
                            (SignupRequest.phone p)
                            (SignupRequest.whatsapp_number p) None)])
               (store db) (product db) (order db) (notification db)
               (N.succ (next_id db)) (sink_up db)
               (writes db
                  ++ [Inserted (next_id db)
                        (seller_doc
                           (Seller.mk (SignupRequest.name p) (Some address)
                              (SignupRequest.phone p)
                              (SignupRequest.whatsapp_number p) None))]))
        | None => (Raise ValidationError, db)
        end
    | None =>
        (Ok (str_of_oid (next_id db)),
         mkDB (seller db
                 ++ [(next_id db,
                      Seller.mk (SignupRequest.name p) None
                        (SignupRequest.phone p)
                        (SignupRequest.whatsapp_number p) None)])
           (store db) (product db) (order db) (notification db)
           (N.succ (next_id db)) (sink_up db)
           (writes db
              ++ [Inserted (next_id db)
                    (seller_doc
                       (Seller.mk (SignupRequest.name p) None
                          (SignupRequest.phone p)
                          (SignupRequest.whatsapp_number p) None))]))
    end.
Proof.
  unfold signup, Seller_new. destruct (SignupRequest.email p) as [e|].
  - destruct (validate_email e); reflexivity.
  - reflexivity.
Qed.

(** X3.  A seller who signs up (with no email, or with one the
    validator accepts) and opens a store with the identifier returned,
    under a slug that is taken by no store, gets the store: the seller
    is stored, with the email as the validator normalised it; the owner
    is found; the store carries the returned identifier as its
    owner_id, the lowercased slug, and as WhatsApp number the first
    non-empty of the number given for the store, the number given at
    signup and the phone given at signup.  The store's seller
    identifiers must be older than the next identifier, which must fit
    twelve bytes. *)
Theorem signup_then_create_store_ok (validate_email : string -> option string)
  (s : SignupRequest.t) (name slug : string)
  (description whatsapp_number : option string) (db : DB) :
  (next_id db < 2 ^ 96)%N ->
  ids_below (next_id db) (seller db) ->
  (forall e, SignupRequest.email s = Some e -> validate_email e <> None) ->
  List.find (has_slug slug) (store db) = None ->
  exists (db' : DB) (st : Store.t),
    signup_then_create_store validate_email s name slug description whatsapp_number db
    = (Ok (str_of_oid (N.succ (next_id db))), db')
    /\ seller db'
       = seller db
           ++ [(next_id db,
                Seller.mk (SignupRequest.name s)
                  (match SignupRequest.email s with
                   | Some e => validate_email e
                   | None => None
                   end)
                  (SignupRequest.phone s) (SignupRequest.whatsapp_number s) None)]
    /\ store db' = store db ++ [(N.succ (next_id db), st)]
    /\ Store.owner_id st = str_of_oid (next_id db)
    /\ Store.name st = name
    /\ Store.slug st = lower slug
    /\ Store.description st = description
    /\ Store.whatsapp_number st
       = py_or (py_or whatsapp_number (SignupRequest.whatsapp_number s))
           (Some (SignupRequest.phone s)).
Proof.
  intros Hb Hids Hemail Hslug.
  unfold signup_then_create_store, bind. rewrite signup_run.
  assert (Hrun : forall db1 (address : option string),
             seller db1
             = seller db
                 ++ [(next_id db,
                      Seller.mk (SignupRequest.name s) address
                        (SignupRequest.phone s) (SignupRequest.whatsapp_number s) None)] ->
             store db1 = store db ->
             next_id db1 = N.succ (next_id db) ->
             exists db' st,
               create_store
                 (CreateStoreRequest.mk (str_of_oid (next_id db)) name slug
                    description whatsapp_number) db1
               = (Ok (str_of_oid (N.succ (next_id db))), db')
               /\ seller db'
                  = seller db
                      ++ [(next_id db,
                           Seller.mk (SignupRequest.name s) address
                             (SignupRequest.phone s)
                             (SignupRequest.whatsapp_number s) None)]
               /\ store db' = store db ++ [(N.succ (next_id db), st)]
               /\ Store.owner_id st = str_of_oid (next_id db)
               /\ Store.name st = name
               /\ Store.slug st = lower slug
               /\ Store.description st = description
               /\ Store.whatsapp_number st
                  = py_or (py_or whatsapp_number (SignupRequest.whatsapp_number s))
                      (Some (SignupRequest.phone s))).
  { intros db1 address Hs Hst Hn.
    eexists _, _. split.
    - rewrite (create_store_run _ db1 (next_id db)
                 (next_id db,
                  Seller.mk (SignupRequest.name s) address (SignupRequest.phone s)
                    (SignupRequest.whatsapp_number s) None)).
      + rewrite Hn. reflexivity.
      + cbn. now rewrite Hst.
      + cbn. now apply ObjectId_of_str_of_oid.
      + rewrite Hs. now apply find_by_id_last.
    - cbn. rewrite Hs, Hst. repeat split. }
  destruct (SignupRequest.email s) as [e|] eqn:He.
  - destruct (validate_email e) as [address|] eqn:Hv;
      [|now contradiction (Hemail e eq_refl)].
    apply Hrun; reflexivity.
  - apply Hrun; reflexivity.
Qed.

Lemma signup_then_create_store_ok_witness :
  exists (db' : DB) (st : Store.t),
    signup_then_create_store knows_jane jane_signup "Jane Shop" "Jane-Shop"
      None None empty_db
    = (Ok (str_of_oid 1%N), db')
    /\ seller db'
       = [(0%N, Seller.mk "Jane" (Some "Jane@example.com") "254700000000"
                 (Some "254722222222") None)]
    /\ store db' = [(1%N, st)]
    /\ Store.owner_id st = str_of_oid 0%N
    /\ Store.slug st = lower "Jane-Shop"
    /\ Store.whatsapp_number st = Some "254722222222".
Proof.
  destruct (signup_then_create_store_ok knows_jane jane_signup
              "Jane Shop" "Jane-Shop" None None empty_db)
    as (db' & st & Hrun & Hseller & Hstore & Howner & _ & Hslug & _ & Hwa).
  - reflexivity.
  - constructor.
  - intros e [= <-]. discriminate.
  - reflexivity.
  - exists db', st. repeat split; assumption.
Defined.

(** ** Looking a store up *)

Lemma get_store_run (slug : string) (db : DB) :
  get_store slug db
  = match List.find (has_slug (lower slug)) (store db) with
    | Some (oid, s) => (Ok (str_of_oid oid, s), db)
    | None => (Raise (HTTPException 404 "Store not found"), db)
    end.
Proof.
  unfold get_store. store_ops. fold (has_slug (lower slug)).
  now destruct (List.find (has_slug (lower slug)) (store db)) as [[oid s]|].
Qed.

(** X4.  [get_store] never changes the store and does not tell the
    case-variants of a slug apart: two slugs with the same lowercase
    form get the same answer.  It raises 404 "Store not found" exactly
    when no stored slug equals the lowercased slug, and otherwise
    returns the first store with that slug, under the string of its
    identifier. *)
Theorem get_store_outcomes :
  (forall (s1 s2 : string) (db : DB),
      lower s1 = lower s2 -> get_store s1 db = get_store s2 db)
  /\ (forall (slug : string) (db : DB), snd (get_store slug db) = db)
  /\ (forall (slug : string) (db : DB),
        get_store slug db = (Raise (HTTPException 404 "Store not found"), db)
        <-> (forall d, In d (store db) -> Store.slug (snd d) <> lower slug))
  /\ (forall (slug : string) (db : DB) (id : string) (st : Store.t),
        fst (get_store slug db) = Ok (id, st) ->
        Store.slug st = lower slug
        /\ exists oid, id = str_of_oid oid /\ In (oid, st) (store db)
                       /\ List.find (has_slug (lower slug)) (store db) = Some (oid, st)).
Proof.
  split; [|split; [|split]].
  - intros s1 s2 db H. now rewrite !get_store_run, H.
  - intros slug db. rewrite get_store_run.
    now destruct (List.find _ (store db)) as [[oid s]|].
  - intros slug db. rewrite get_store_run.
    destruct (List.find (has_slug (lower slug)) (store db)) as [[oid s]|] eqn:E.
    + split; [discriminate|]. intros H. exfalso.
      apply find_some in E. destruct E as [Hin Heq].
      apply (H _ Hin). now apply String.eqb_eq in Heq.
    + split; [|reflexivity]. intros _ d Hin Heq.
      apply (find_none _ _ E) in Hin. unfold has_slug in Hin.
      rewrite Heq, String.eqb_refl in Hin. discriminate.
  - intros slug db id st. rewrite get_store_run.
    destruct (List.find (has_slug (lower slug)) (store db)) as [[oid s]|] eqn:E;
      [|discriminate].
    cbn. intros [= <- <-].
    pose proof (find_some _ _ E) as [Hin Heq]. apply String.eqb_eq in Heq.
    split; [exact Heq|]. exists oid. auto.
Qed.

(** X5.  After [create_store] succeeded for a slug, [get_store] finds a
    store under every case-variant of that slug, and the store it
    returns has the lowercased slug; when no store had that lowercased
    slug before, it returns the store just created, under the
    identifier [create_store] returned. *)
Theorem create_store_then_get_store (p : CreateStoreRequest.t) (db : DB)
  (store_id : string) (db' : DB) (slug : string) :
  create_store p db = (Ok store_id, db') ->
  lower slug = lower (CreateStoreRequest.slug p) ->
  (exists id st,
      get_store slug db' = (Ok (id, st), db')
      /\ Store.slug st = lower (CreateStoreRequest.slug p))
  /\ (List.find (has_slug (lower (CreateStoreRequest.slug p))) (store db) = None ->
      exists st,
        get_store slug db' = (Ok (store_id, st), db')
        /\ Store.owner_id st = CreateStoreRequest.owner_id p
        /\ Store.name st = CreateStoreRequest.name p
        /\ Store.slug st = lower (CreateStoreRequest.slug p)
        /\ Store.description st = CreateStoreRequest.description p).
Proof.
  intros Hok Hslug.
  destruct (create_store_ok_inv _ _ _ _ Hok)
    as (oid & d & Hfree & Hoid & Howner & _ & Hstore).
  assert (Hid : store_id = str_of_oid (next_id db)).
  { rewrite (create_store_run _ _ _ _ Hfree Hoid Howner) in Hok. now injection Hok. }
  rewrite get_store_run, Hslug, Hstore, find_app.
  split.
  - destruct (List.find (has_slug (lower (CreateStoreRequest.slug p))) (store db))
      as [[i s]|] eqn:E.
    + exists (str_of_oid i), s. split; [reflexivity|].
      apply find_some in E. destruct E as [_ Heq]. now apply String.eqb_eq in Heq.
    + cbn. rewrite String.eqb_refl.
      eexists _, _. split; reflexivity.
  - intros Hnone. rewrite Hnone. cbn.
    rewrite String.eqb_refl, Hid.
    eexists. repeat split.
Qed.

Lemma create_store_then_get_store_witness :
  exists st,
    get_store "JANE-SHOP" (snd (create_store open_jane_shop jane_db))
    = (Ok ("000000000000000000000001", st), snd (create_store open_jane_shop jane_db))
    /\ Store.name st = "Jane Shop".
Proof.
  destruct (create_store_then_get_store open_jane_shop jane_db
              "000000000000000000000001"
              (snd (create_store open_jane_shop jane_db)) "JANE-SHOP")
    as [_ H].
  - vm_compute. reflexivity.
  - vm_compute. reflexivity.
  - destruct (H eq_refl) as (st & Hget & _ & Hname & _).
    exists st. split; assumption.
Defined.

Lemma get_store_outcomes_witness :
  get_store "JANE-SHOP" shop_db = get_store "jane-shop" shop_db.
Proof.
  apply (proj1 get_store_outcomes). reflexivity.
Defined.

(** ** Creating a product, then listing *)

(** X6.  After [create_product] succeeded for a store, the listing of
    that store, asked for under any case-variant of its slug, is the
    listing from before followed by the new product under the
    identifier returned, with the name, price, description and image
    given; the listing of every other store is what it was. *)
Theorem create_product_then_list_products (p : CreateProductRequest.t) (db : DB)
  (product_id : string) (db' : DB) (slug : string) :
  create_product p db = (Ok product_id, db') ->
  (lower slug = lower (CreateProductRequest.store_slug p) ->
   fst (list_products slug db')
   = match fst (list_products slug db) with
     | Ok items =>
         Ok (items
               ++ [(product_id,
                    Product.mk (lower (CreateProductRequest.store_slug p))
                      (CreateProductRequest.name p) (CreateProductRequest.price p)
                      (CreateProductRequest.description p)
                      (CreateProductRequest.image_url p) true)])
     | Raise e => Raise e
     end)
  /\ (lower slug <> lower (CreateProductRequest.store_slug p) ->
      fst (list_products slug db') = fst (list_products slug db)).
Proof.
  intros Hok.
  destruct (List.find (has_slug (lower (CreateProductRequest.store_slug p))) (store db))
    as [d|] eqn:E.
  2:{ rewrite (create_product_not_found _ _ E) in Hok. discriminate. }
  rewrite (create_product_found _ _ _ E) in Hok.
  destruct (0 <=? CreateProductRequest.price p)%float; [|discriminate].
  injection Hok as <- <-.
  rewrite !list_products_run. cbn [fst product].
  rewrite filter_app, map_app. cbn [filter].
  assert (Hact : active_in (lower slug) (next_id db, new_product p)
                 = (lower (CreateProductRequest.store_slug p) =? lower slug)%string).
  { unfold active_in. cbn. apply andb_true_r. }
  rewrite Hact.
  split.
  - intros Hslug. rewrite Hslug, String.eqb_refl. reflexivity.
  - intros Hslug.
    assert (Hne : (lower (CreateProductRequest.store_slug p) =? lower slug)%string = false).
    { apply String.eqb_neq. congruence. }
    rewrite Hne. cbn. now rewrite app_nil_r.
Qed.

Lemma create_product_then_list_products_witness :
  fst (list_products "JANE-SHOP" (snd (create_product mandazi_product shop_db)))
  = Ok [("000000000000000000000002",
         Product.mk "jane-shop" "Mandazi" 20%float None None true)].
Proof.
  apply (proj1 (create_product_then_list_products mandazi_product shop_db
                  "000000000000000000000002"
                  (snd (create_product mandazi_product shop_db)) "JANE-SHOP"
                  ltac:(vm_compute; reflexivity))).
  vm_compute. reflexivity.
Defined.

(** ** What a checkout writes *)

(** X7.  A checkout that succeeds on a well-formed store writes exactly
    one notification, after those that were there: of type "whatsapp",
    for the lowercased slug, naming the order by the identifier the
    checkout returns, and telling the number of items, the order's total
    and the customer's phone; the order it names is in the store. *)
Theorem checkout_notifies (payload : CheckoutRequest.t) (db : DB)
  (r : CheckoutResponse.t) (db' : DB) :
  wf db ->
  checkout payload db = (Ok r, db') ->
  exists (i : ObjectId) (n : Notification.t) (o : Order.t),
    notification db' = notification db ++ [(i, n)]
    /\ List.find (by_id (next_id db)) (order db') = Some (next_id db, o)
    /\ CheckoutResponse.order_id r = str_of_oid (next_id db)
    /\ CheckoutResponse.status r = Order.status o
    /\ Notification.order_id n = CheckoutResponse.order_id r
    /\ Notification.type n = "whatsapp"
    /\ Notification.store_slug n = lower (CheckoutRequest.store_slug payload)
    /\ Notification.store_slug n = Order.store_slug o
    /\ Notification.item_count (Notification.message n)
       = List.length (CheckoutRequest.items payload)
    /\ Notification.amount (Notification.message n) = Order.total o
    /\ Notification.from_phone (Notification.message n)
       = CustomerInfo.phone (CheckoutRequest.customer payload).
Proof.
  intros Hwf Hok.
  destruct (quantities_int64_dec (CheckoutRequest.items payload)) as [Hq|Hq];
    [|rewrite (checkout_unstorable _ _ Hq) in Hok; discriminate].
  destruct (accumulate (CheckoutRequest.items payload) 0%float) as [total|e] eqn:Hacc.
  2:{ rewrite (checkout_fails_early _ _ _ Hacc) in Hok. discriminate. }
  rewrite (checkout_run _ _ _ Hacc Hq Hwf) in Hok.
  destruct (sink_up db); [|discriminate].
  injection Hok as <- <-.
  exists (N.succ (next_id db)),
    (order_notification payload total (str_of_oid (next_id db))),
    (set_paid (pending_order payload total)).
  destruct Hwf as [_ Hids].
  split; [reflexivity|].
  split; [cbn; now apply find_by_id_last|].
  repeat split.
Qed.

Lemma checkout_notifies_witness :
  exists (i : ObjectId) (n : Notification.t),
    notification (snd (checkout mandazi_request empty_db)) = [(i, n)]
    /\ Notification.order_id n = "000000000000000000000000"
    /\ Notification.amount (Notification.message n) = 60%float.
Proof.
  destruct (checkout_notifies mandazi_request empty_db
              (CheckoutResponse.mk "000000000000000000000000" "paid")
              (snd (checkout mandazi_request empty_db)) wf_empty
              ltac:(vm_compute; reflexivity))
    as (i & n & o & Hn & Ho & _ & _ & Hid & _ & _ & _ & _ & Hamount & _).
  exists i, n. split; [exact Hn|]. split; [exact Hid|].
  rewrite Hamount.
  vm_compute in Ho. injection Ho as <-. reflexivity.
Defined.

Lemma length_update_first {A} (flt : ObjectId * A -> bool) (f : A -> A)
  (c : Collection A) :
  List.length (update_first flt f c) = List.length c.
Proof.
  induction c as [|d c IH]; simpl; [reflexivity|].
  destruct (flt d); simpl; [reflexivity|now rewrite IH].
Qed.

Lemma map_fst_update_first {A} (flt : ObjectId * A -> bool) (f : A -> A)
  (c : Collection A) :
  map fst (update_first flt f c) = map fst c.
Proof.
  induction c as [|d c IH]; simpl; [reflexivity|].
  destruct (flt d); simpl; [reflexivity|now rewrite IH].
Qed.

(** X8.  Whatever the request and the state of the store, and however
    the call ends, [api_checkout] leaves sellers, stores and products
    as they were; it adds at most one order and at most one
    notification, removes none, keeps the identifiers of the orders and
    the notifications that were there, and hands out at most two new
    identifiers. *)
Theorem checkout_touches_only_orders (payload : CheckoutRequest.t) (db : DB) :
  let db' := snd (api_checkout payload db) in
  seller db' = seller db
  /\ store db' = store db
  /\ product db' = product db
  /\ sink_up db' = sink_up db
  /\ (exists l, map fst (order db') = map fst (order db) ++ l
                /\ (List.length l <= 1)%nat)
  /\ (exists l, notification db' = notification db ++ l
                /\ (List.length l <= 1)%nat)
  /\ (next_id db <= next_id db' <= next_id db + 2)%N.
Proof.
  assert (Hsame : seller db = seller db /\ store db = store db
                  /\ product db = product db /\ sink_up db = sink_up db
                  /\ (exists l, map fst (order db) = map fst (order db) ++ l
                                /\ (List.length l <= 1)%nat)
                  /\ (exists l, notification db = notification db ++ l
                                /\ (List.length l <= 1)%nat)
                  /\ (next_id db <= next_id db <= next_id db + 2)%N).
  { repeat split; try lia; exists []; rewrite app_nil_r; split; auto. }
  unfold api_checkout. destruct (CheckoutRequest.valid payload); [|exact Hsame].
  unfold checkout, bind at 1 3, lift.
  destruct (accumulate (CheckoutRequest.items payload) 0%float) as [total|e];
    [|exact Hsame].
  unfold create_document, bind, insert_one. cbn [encodes order_c].
  match goal with
  | |- context [Order.encodable ?o] => destruct (Order.encodable o)
  end; [|exact Hsame].
  store_ops.
  destruct (ObjectId_of_str (str_of_oid (next_id db))) as [k|]; cbn.
  - match goal with
    | |- context [List.find ?f ?l] => destruct (List.find f l)
    end; cbn; destruct (sink_up db) eqn:Hsink; cbn; rewrite ?Hsink;
      repeat split; try lia;
      try (exists [next_id db]; rewrite map_fst_update_first, map_app; split; auto);
      try (eexists; split; [reflexivity|cbn; lia]);
      try (exists []; rewrite app_nil_r; split; auto).
  - repeat split; try lia.
    + exists [next_id db]. rewrite map_app. split; auto.
    + exists []. rewrite app_nil_r. split; auto.
Qed.

(** X9.  [checkout] raises [OverflowError] exactly when a quantity of
    the request does not fit the eight bytes the store has for an
    integer, whatever the prices: in the total loop when the quantity
    does not even convert to a float, otherwise when the driver encodes
    the order.  Nothing is written then.  When all quantities fit, on a
    well-formed store whose notification sink is up, it returns
    "paid". *)
Theorem checkout_arithmetic (payload : CheckoutRequest.t) (db : DB) :
  (fst (checkout payload db) = Raise OverflowError
   <-> ~ quantities_int64 (CheckoutRequest.items payload))
  /\ (~ quantities_int64 (CheckoutRequest.items payload) ->
      checkout payload db = (Raise OverflowError, db))
  /\ (~ quantities_fit (CheckoutRequest.items payload) ->
      accumulate (CheckoutRequest.items payload) 0%float = Raise OverflowError)
  /\ (quantities_int64 (CheckoutRequest.items payload) ->
      wf db -> sink_up db = true ->
      fst (checkout payload db)
      = Ok (CheckoutResponse.mk (str_of_oid (next_id db)) "paid")).
Proof.
  split; [|split; [|split]].
  - split.
    + intros Hover Hq.
      destruct (accumulate_fits _ (quantities_int64_fit _ Hq) 0%float) as [total Hacc].
      revert Hover. unfold checkout, bind at 1, lift. rewrite Hacc.
      fold (pending_order payload total).
      unfold bind at 1, create_document, bind at 1, insert_one.
      cbn [encodes order_c]. rewrite (encodable_pending _ _ Hq).
      store_ops.
      destruct (ObjectId_of_str (str_of_oid (next_id db))) as [k|]; cbn;
        [|discriminate].
      match goal with
      | |- context [List.find ?f ?l] => destruct (List.find f l)
      end; cbn; destruct (sink_up db); discriminate.
    + intros Hq. now rewrite (checkout_unstorable _ _ Hq).
  - apply checkout_unstorable.
  - apply accumulate_overflow.
  - intros Hq Hwf Hsink.
    destruct (accumulate_fits _ (quantities_int64_fit _ Hq) 0%float) as [total Hacc].
    now rewrite (checkout_run _ _ _ Hacc Hq Hwf), Hsink.
Qed.

Lemma checkout_arithmetic_witness :
  checkout bulk_request empty_db = (Raise OverflowError, empty_db).
Proof.
  apply (proj1 (proj2 (checkout_arithmetic bulk_request empty_db))).
  intros H. inversion H as [|it items Hit _]. discriminate Hit.
Defined.

Example checkout_largest_quantity :
  fst (checkout
         (CheckoutRequest.mk "jane-shop"
            [OrderItem.mk "p" "Mandazi" 20%float (2 ^ 63 - 1)] demo_customer)
         empty_db)
  = Ok (CheckoutResponse.mk "000000000000000000000000" "paid")
  /\ checkout
       (CheckoutRequest.mk "jane-shop"
          [OrderItem.mk "p" "Mandazi" 20%float (2 ^ 63)] demo_customer)
       empty_db
     = (Raise OverflowError, empty_db).
Proof. split; vm_compute; reflexivity. Qed.

(** ** What every reachable state satisfies *)

Lemma step_change (validate_email : string -> option string) (db db' : DB) :
  step validate_email db db' -> change db db'.
Proof.
  intros Hstep. destruct Hstep.
  - rewrite signup_run. destruct (SignupRequest.email p) as [e|].
    + destruct (validate_email e); cbn; constructor.
    + cbn. constructor.
  - destruct (List.find (has_slug (CreateStoreRequest.slug p)) (store db))
      as [d|] eqn:Hslug.
    { rewrite (create_store_duplicate _ _ _ Hslug). constructor. }
    destruct (create_store p db) as [[id|e] db'] eqn:Hrun.
    + destruct (create_store_ok_inv _ _ _ _ Hrun) as (oid & d & _ & Hoid & Hown & _).
      rewrite (create_store_run _ _ _ _ Hslug Hoid Hown) in Hrun.
      injection Hrun as _ <-. cbn. now apply change_store with (oid := oid).
    + destruct (create_store_raises _ _ _ _ Hrun) as [-> _]. constructor.
  - rewrite get_store_run.
    destruct (List.find _ (store db)) as [[oid s]|]; constructor.
  - destruct (List.find (has_slug (lower (CreateProductRequest.store_slug p))) (store db))
      as [d|] eqn:E.
    + rewrite (create_product_found _ _ _ E).
      destruct (0 <=? CreateProductRequest.price p)%float eqn:Hp; cbn.
      * now apply change_product with (d := d).
      * constructor.
    + rewrite (create_product_not_found _ _ E). constructor.
  - constructor.
  - unfold api_checkout. destruct (CheckoutRequest.valid p); [|constructor].
    destruct (quantities_int64_dec (CheckoutRequest.items p)) as [Hq|Hq];
      [|rewrite (checkout_unstorable _ _ Hq); constructor].
    destruct (accumulate (CheckoutRequest.items p) 0%float) as [total|e] eqn:Hacc.
    + now apply change_checkout with (total := total).
    + rewrite (checkout_fails_early _ _ _ Hacc). constructor.
  - constructor.
Qed.

(** The identifiers a checkout hands out, on any store. *)
Lemma checkout_ids (payload : CheckoutRequest.t) (db : DB) (total : float) :
  accumulate (CheckoutRequest.items payload) 0%float = Ok total ->
  quantities_int64 (CheckoutRequest.items payload) ->
  let db' := snd (checkout payload db) in
  seller db' = seller db /\ store db' = store db /\ product db' = product db
  /\ map fst (order db') = map fst (order db) ++ [next_id db]
  /\ ((notification db' = notification db /\ next_id db' = N.succ (next_id db))
      \/ (exists n, notification db' = notification db ++ [(N.succ (next_id db), n)]
                    /\ next_id db' = N.succ (N.succ (next_id db)))).
Proof.
  intros Hacc Hq.
  set (c := checkout payload db).
  assert (Hc : c = checkout payload db) by reflexivity. clearbody c.
  revert Hc. unfold checkout, bind at 1, lift. rewrite Hacc.
  fold (pending_order payload total).
  unfold bind at 1, create_document, bind at 1, insert_one.
  cbn [encodes order_c]. rewrite (encodable_pending _ _ Hq).
  store_ops.
  destruct (ObjectId_of_str (str_of_oid (next_id db))) as [k|]; cbn.
  - match goal with
    | |- context [List.find ?f ?l] => destruct (List.find f l)
    end; cbn; destruct (sink_up db); cbn; intros ->; cbn;
      (split; [reflexivity|]); (split; [reflexivity|]); (split; [reflexivity|]);
      (split; [now rewrite map_fst_update_first, map_app|]);
      ((right; eexists; split; reflexivity) || (left; split; reflexivity)).
  - intros ->. cbn. repeat split; rewrite ?map_app; try reflexivity.
    left. split; reflexivity.
Qed.

Lemma change_next_id (db db' : DB) : change db db' -> (next_id db <= next_id db')%N.
Proof.
  intros H. destruct H; try (cbn; lia).
  destruct (checkout_ids payload db total H H0)
    as (_ & _ & _ & _ & [[_ Hn]|(n & _ & Hn)]);
    rewrite Hn; lia.
Qed.

Lemma change_owned (db db' : DB) :
  change db db' ->
  Forall (fun d => owned db (snd d)) (store db) ->
  Forall (fun d => owned db' (snd d)) (store db').
Proof.
  intros H Hinv. destruct H.
  - exact Hinv.
  - cbn. eapply Forall_impl; [|exact Hinv].
    intros st (oid & d & Hoid & Hfind). exists oid, d. split; [exact Hoid|].
    cbn. now rewrite find_app, Hfind.
  - cbn. apply Forall_app. split.
    + exact Hinv.
    + constructor; [|constructor]. exists oid, d. now split.
  - exact Hinv.
  - destruct (checkout_ids payload db total H H0) as (Es & Et & _).
    rewrite Et. eapply Forall_impl; [|exact Hinv].
    intros st (oid & d & Hoid & Hfind). exists oid, d. now rewrite Es.
  - exact Hinv.
Qed.

Lemma change_listed (db db' : DB) :
  change db db' ->
  Forall (fun d => listed db (snd d)) (product db) ->
  Forall (fun d => listed db' (snd d)) (product db').
Proof.
  intros H Hinv. destruct H.
  - exact Hinv.
  - exact Hinv.
  - cbn. eapply Forall_impl; [|exact Hinv].
    intros pr (Ha & Hp & Hl & s & Hin & Hs). repeat split; try assumption.
    exists s. split; [|exact Hs]. cbn. apply in_or_app. now left.
  - cbn. apply Forall_app. split; [exact Hinv|].
    constructor; [|constructor]. cbn. repeat split.
    + exact H0.
    + apply lower_idem.
    + apply find_some in H. destruct H as [Hin Hs]. exists d. split; [exact Hin|].
      now apply String.eqb_eq.
  - destruct (checkout_ids payload db total H H0) as (_ & Et & Ep & _).
    rewrite Ep. eapply Forall_impl; [|exact Hinv].
    intros pr (Ha & Hp & Hl & s & Hin & Hs). repeat split; try assumption.
    exists s. now rewrite Et.
  - exact Hinv.
Qed.

Lemma change_checkout_run (payload : CheckoutRequest.t) (db : DB) (total : float) :
  accumulate (CheckoutRequest.items payload) 0%float = Ok total ->
  quantities_int64 (CheckoutRequest.items payload) ->
  ids_below (next_id db) (order db) ->
  (next_id (snd (checkout payload db)) <= 2 ^ 96)%N ->
  order (snd (checkout payload db))
  = order db ++ [(next_id db, set_paid (pending_order payload total))]
  /\ (notification (snd (checkout payload db)) = notification db
      \/ notification (snd (checkout payload db))
         = notification db
             ++ [(N.succ (next_id db),
                  order_notification payload total (str_of_oid (next_id db)))]).
Proof.
  intros Hacc Hq Hids Hb.
  assert (Hwf : wf db).
  { split; [|exact Hids].
    destruct (checkout_ids payload db total Hacc Hq)
      as (_ & _ & _ & _ & [[_ E]|(n & _ & E)]);
      rewrite E in Hb; lia. }
  rewrite (checkout_run _ _ _ Hacc Hq Hwf).
  destruct (sink_up db); cbn; split; auto.
Qed.

Lemma change_settled (db db' : DB) :
  change db db' ->
  ids_below (next_id db) (order db) ->
  (next_id db' <= 2 ^ 96)%N ->
  Forall (fun d => settled (snd d)) (order db) ->
  Forall (fun d => settled (snd d)) (order db').
Proof.
  intros H Hids Hb Hinv. destruct H; try exact Hinv.
  destruct (change_checkout_run _ _ _ H H0 Hids Hb) as [Eo _]. rewrite Eo.
  apply Forall_app. split; [exact Hinv|].
  constructor; [|constructor]. cbn. repeat split.
  - apply lower_idem.
  - now apply accumulate_sum_then_round.
Qed.

Lemma change_announces (db db' : DB) :
  change db db' ->
  ids_below (next_id db) (order db) ->
  (next_id db' <= 2 ^ 96)%N ->
  Forall (fun d => announces db (snd d)) (notification db) ->
  Forall (fun d => announces db' (snd d)) (notification db').
Proof.
  intros H Hids Hb Hinv. destruct H; try exact Hinv.
  destruct (change_checkout_run _ _ _ H H0 Hids Hb) as [Eo En].
  assert (Hold : Forall (fun d => announces (snd (checkout payload db)) (snd d))
                   (notification db)).
  { eapply Forall_impl; [|exact Hinv].
    intros n (i & o & Hin & Hrest). exists i, o. split; [|exact Hrest].
    rewrite Eo. apply in_or_app. now left. }
  destruct En as [En|En]; rewrite En; [exact Hold|].
  apply Forall_app. split; [exact Hold|].
  constructor; [|constructor].
  exists (next_id db), (set_paid (pending_order payload total)). split.
  - rewrite Eo. apply in_or_app. right. now left.
  - cbn. repeat split.
Qed.

Lemma change_notified (db db' : DB) :
  change db db' ->
  (List.length (notification db) <= List.length (order db))%nat ->
  (List.length (notification db') <= List.length (order db'))%nat.
Proof.
  intros H Hinv. destruct H; try exact Hinv.
  destruct (checkout_ids payload db total H H0) as (_ & _ & _ & Eo & En).
  remember (snd (checkout payload db)) as db' eqn:Edb. clear Edb.
  apply (f_equal (@List.length _)) in Eo.
  rewrite length_map, length_app, length_map in Eo. cbn in Eo. rewrite Eo.
  destruct En as [[E _]|(n & E & _)]; rewrite E; [lia|].
  rewrite length_app. cbn. lia.
Qed.

Section ReachableStates.

Variable validate_email : string -> option string.

Lemma reachable_next_id (db db' : DB) :
  step validate_email db db' -> (next_id db <= next_id db')%N.
Proof. intros H. apply change_next_id. now apply step_change with (validate_email := validate_email). Qed.

Lemma reachable_order_ids (db : DB) :
  reachable validate_email db -> ids_below (next_id db) (order db).
Proof.
  induction 1 as [b|db db' _ IH Hstep]; [constructor|].
  now apply (step_order_ids validate_email db).
Qed.

Lemma reachable_owned (db : DB) :
  reachable validate_email db -> Forall (fun d => owned db (snd d)) (store db).
Proof.
  induction 1 as [b|db db' _ IH Hstep]; [constructor|].
  apply (change_owned db); [|exact IH]. now apply step_change with (validate_email := validate_email).
Qed.

Lemma reachable_listed (db : DB) :
  reachable validate_email db -> Forall (fun d => listed db (snd d)) (product db).
Proof.
  induction 1 as [b|db db' _ IH Hstep]; [constructor|].
  apply (change_listed db); [|exact IH]. now apply step_change with (validate_email := validate_email).
Qed.

Lemma reachable_settled (db : DB) :
  reachable validate_email db -> (next_id db <= 2 ^ 96)%N ->
  Forall (fun d => settled (snd d)) (order db).
Proof.
  induction 1 as [b|db db' Hreach IH Hstep]; intros Hb; [constructor|].
  apply (change_settled db).
  - now apply step_change with (validate_email := validate_email).
  - now apply reachable_order_ids.
  - exact Hb.
  - apply IH. pose proof (reachable_next_id db db' Hstep). lia.
Qed.

Lemma reachable_announces (db : DB) :
  reachable validate_email db -> (next_id db <= 2 ^ 96)%N ->
  Forall (fun d => announces db (snd d)) (notification db).
Proof.
  induction 1 as [b|db db' Hreach IH Hstep]; intros Hb; [constructor|].
  apply (change_announces db).
  - now apply step_change with (validate_email := validate_email).
  - now apply reachable_order_ids.
  - exact Hb.
  - apply IH. pose proof (reachable_next_id db db' Hstep). lia.
Qed.

Lemma reachable_notified (db : DB) :
  reachable validate_email db ->
  (List.length (notification db) <= List.length (order db))%nat.
Proof.
  induction 1 as [b|db db' _ IH Hstep]; [cbn; lia|].
  apply (change_notified db); [|exact IH]. now apply step_change with (validate_email := validate_email).
Qed.

End ReachableStates.

(** The end-to-end scenario is a run of the API. *)
Lemma reachable_scenario (validate_email : string -> option string) :
  reachable validate_email (snd (scenario validate_email)).
Proof.
  pose (db1 := snd (signup validate_email
                      (SignupRequest.mk "Jane" "254700000000" None None) empty_db)).
  pose (db2 := snd (create_store
                      (CreateStoreRequest.mk "000000000000000000000000" "Jane Shop"
                         "jane-shop" None None) db1)).
  pose (db3 := snd (create_product
                      (CreateProductRequest.mk "jane-shop" "Mandazi" 20%float None None)
                      db2)).
  change (reachable validate_email
            (snd (api_checkout
                    (CheckoutRequest.mk "JANE-SHOP"
                       [OrderItem.mk "000000000000000000000002" "Mandazi" 20%float 3]
                       (CustomerInfo.mk None "254711111111")) db3))).
  apply reachable_step with (db := db3); [|apply step_checkout].
  apply reachable_step with (db := db2); [|apply step_create_product].
  apply reachable_step with (db := db1); [|apply step_create_store].
  apply reachable_step with (db := empty_db); [|apply step_signup].
  apply reachable_empty.
Qed.

(** X11.  In every state the API reaches by serving requests one
    after another, while identifiers still fit twelve bytes and with
    the notification write as the only write that can fail, every order
    of the store is settled: its status is paid, its mpesa record says
    success, its slug is in lower case and its total is the rounded sum
    of its own lines.  No order stays pending, also when the
    notification write failed. *)
Theorem reachable_orders_settled (validate_email : string -> option string) (db : DB) :
  reachable validate_email db ->
  (next_id db <= 2 ^ 96)%N ->
  forall i o, In (i, o) (order db) ->
    settled o /\ Order.status o <> "pending".
Proof.
  intros Hreach Hb i o Hin.
  pose proof (reachable_settled validate_email db Hreach Hb) as H.
  rewrite Forall_forall in H. specialize (H (i, o) Hin). cbn in H.
  split; [exact H|]. destruct H as (-> & _). discriminate.
Qed.

Lemma reachable_orders_settled_witness :
  settled
    (Order.mk "jane-shop"
       [OrderItem.mk "000000000000000000000002" "Mandazi" 20%float 3]
       60%float (CustomerInfo.mk None "254711111111") "paid"
       [("status", "success")]).
Proof.
  apply (reachable_orders_settled (fun _ => None) (snd (scenario (fun _ => None)))
           (reachable_scenario (fun _ => None))
           ltac:(vm_compute; discriminate) 3%N).
  vm_compute. left. reflexivity.
Defined.

(** X12.  In every state the API reaches by serving requests one
    after another, every store has an owner who
    is a seller of the store, its slug is in lower case, and
    [get_store] under that slug finds a store. *)
Theorem reachable_stores_owned (validate_email : string -> option string) (db : DB) :
  reachable validate_email db ->
  forall i st, In (i, st) (store db) ->
    owned db st
    /\ lower (Store.slug st) = Store.slug st
    /\ exists r, get_store (Store.slug st) db = (Ok r, db)
                 /\ Store.slug (snd r) = Store.slug st.
Proof.
  intros Hreach i st Hin.
  pose proof (reachable_owned validate_email db Hreach) as Ho.
  pose proof (reachable_slugs_lower validate_email db Hreach) as Hl.
  unfold slugs_lower in Hl. rewrite Forall_forall in Ho, Hl.
  specialize (Ho (i, st) Hin). specialize (Hl (i, st) Hin). cbn in Ho, Hl.
  split; [exact Ho|]. split; [exact Hl|].
  rewrite get_store_run, Hl.
  destruct (List.find (has_slug (Store.slug st)) (store db)) as [[j s]|] eqn:E.
  - exists (str_of_oid j, s). split; [reflexivity|].
    apply find_some in E. destruct E as [_ E]. now apply String.eqb_eq in E.
  - apply (find_none _ _ E) in Hin. unfold has_slug in Hin. cbn in Hin.
    rewrite String.eqb_refl in Hin. discriminate.
Qed.

Lemma reachable_stores_owned_witness :
  owned (snd (scenario (fun _ => None))) shop
  /\ exists r, get_store "jane-shop" (snd (scenario (fun _ => None)))
               = (Ok r, snd (scenario (fun _ => None)))
               /\ Store.slug (snd r) = "jane-shop".
Proof.
  destruct (reachable_stores_owned (fun _ => None) (snd (scenario (fun _ => None)))
              (reachable_scenario (fun _ => None)) 1%N shop
              ltac:(vm_compute; left; reflexivity)) as (Ho & _ & Hg).
  split; [exact Ho|exact Hg].
Defined.

(** X13.  In every state the API reaches by serving requests one
    after another, every product is active, has
    a price of at least zero and names, in lower case, the slug of a
    store that exists.  So [list_products] hides nothing: it returns
    every product whose store_slug is the lowercased slug. *)
Theorem reachable_products_listed (validate_email : string -> option string) (db : DB) :
  reachable validate_email db ->
  (forall i p, In (i, p) (product db) -> listed db p)
  /\ forall slug,
       list_products slug db
       = (Ok (map (fun it => (str_of_oid (fst it), snd it))
                (filter (fun d => (Product.store_slug (snd d) =? lower slug)%string)
                   (product db))),
          db).
Proof.
  intros Hreach.
  pose proof (reachable_listed validate_email db Hreach) as H.
  rewrite Forall_forall in H. split.
  - intros i p Hin. exact (H (i, p) Hin).
  - intros slug. rewrite list_products_run.
    rewrite (filter_ext_in (active_in (lower slug))
               (fun d => (Product.store_slug (snd d) =? lower slug)%string));
      [reflexivity|].
    intros d Hin.
    destruct (H d Hin) as (Ha & _). unfold active_in. rewrite Ha. cbn.
    apply andb_true_r.
Qed.

Lemma reachable_products_listed_witness :
  list_products "Jane-Shop" (snd (scenario (fun _ => None)))
  = (Ok [("000000000000000000000002",
          Product.mk "jane-shop" "Mandazi" 20%float None None true)],
     snd (scenario (fun _ => None))).
Proof.
  destruct (reachable_products_listed (fun _ => None) _
              (reachable_scenario (fun _ => None))) as [_ H].
  rewrite H. vm_compute. reflexivity.
Defined.

(** X14.  In every state the API reaches by serving requests one
    after another, there are never more
    notifications than orders, and while identifiers still fit twelve
    bytes every notification is a whatsapp message that carries the
    identifier, the slug, the number of lines, the total and the
    customer phone of an order of the store. *)
Theorem reachable_notifications_announce (validate_email : string -> option string) (db : DB) :
  reachable validate_email db ->
  (List.length (notification db) <= List.length (order db))%nat
  /\ ((next_id db <= 2 ^ 96)%N ->
      forall i n, In (i, n) (notification db) -> announces db n).
Proof.
  intros Hreach. split.
  - now apply (reachable_notified validate_email).
  - intros Hb i n Hin.
    pose proof (reachable_announces validate_email db Hreach Hb) as H.
    rewrite Forall_forall in H. exact (H (i, n) Hin).
Qed.

Lemma reachable_notifications_announce_witness :
  (List.length (notification (snd (scenario (fun _ => None))))
   <= List.length (order (snd (scenario (fun _ => None)))))%nat
  /\ forall i n, In (i, n) (notification (snd (scenario (fun _ => None)))) ->
       announces (snd (scenario (fun _ => None))) n.
Proof.
  destruct (reachable_notifications_announce (fun _ => None) _
              (reachable_scenario (fun _ => None))) as [Hlen H].
  split; [exact Hlen|]. apply H. vm_compute. discriminate.
Defined.

(** ** Diagnostics *)

Lemma take_chars_prefix (n : nat) (s : string) :
  exists rest, s = String.append (take_chars n s) rest.
Proof.
  revert n. induction s as [|c r IH]; intros n; cbn.
  - now exists EmptyString.
  - destruct (continuation c).
    + destruct (IH n) as [rest E]. exists rest. cbn. now rewrite <- E.
    + destruct n as [|m].
      * now exists (String c r).
      * destruct (IH m) as [rest E]. exists rest. cbn. now rewrite <- E.
Qed.

Lemma count_chars_take_chars (n : nat) (s : string) :
  (count_chars (take_chars n s) <= n)%nat.
Proof.
  revert n. induction s as [|c r IH]; intros n; cbn.
  - lia.
  - destruct (continuation c) eqn:E.
    + cbn. rewrite E. apply IH.
    + destruct n as [|m]; cbn; [lia|]. rewrite E. specialize (IH m). lia.
Qed.

Lemma probe_collections (h : option Handle.t) :
  Report.collections (probe h)
  = match h with
    | Some d =>
        match Handle.list_collection_names d with
        | inr names => firstn 10 names
        | inl _ => []
        end
    | None => []
    end.
Proof. now destruct h as [[n [e|l]]|]. Qed.

Lemma probe_database_error (d : Handle.t) (e : string) :
  Handle.list_collection_names d = inl e ->
  Report.database (probe (Some d))
  = String.append "⚠️  Connected but Error: " (first50 e).
Proof. intros H. unfold probe. now rewrite H. Qed.

Lemma probe_connection_status (h : option Handle.t) :
  Report.connection_status (probe h)
  = match h with Some _ => "Connected" | None => "Not Connected" end.
Proof. now destruct h as [[n [e|l]]|]. Qed.

(** X15.  What [GET /test] reports.  The fields database_url and
    database_name say only whether the two environment variables are
    set to a non-empty value: what the handler wrote there from the
    database handle is overwritten.  connection_status is Connected
    exactly when there is a handle, also when listing the collections
    failed.  The collections are the first names the database lists, at
    most ten; when the listing fails there are none, and the database
    field ends in the start of the error message, at most fifty
    characters of it. *)
Theorem test_database_report (env : Env.t) :
  let r := test_database env in
  (forall h,
     let r' := test_database (Env.mk h (Env.DATABASE_URL env) (Env.DATABASE_NAME env)) in
     Report.database_url r' = Report.database_url r
     /\ Report.database_name r' = Report.database_name r
     /\ Report.backend r' = Report.backend r)
  /\ (truthy (Env.DATABASE_URL env) = false <->
      Report.database_url r = Some "❌ Not Set")
  /\ (truthy (Env.DATABASE_NAME env) = false <->
      Report.database_name r = Some "❌ Not Set")
  /\ (Report.connection_status r = "Connected" <-> Env.db env <> None)
  /\ (List.length (Report.collections r) <= 10)%nat
  /\ (forall d names,
        Env.db env = Some d -> Handle.list_collection_names d = inr names ->
        exists rest, names = Report.collections r ++ rest
                     /\ (rest <> [] -> List.length (Report.collections r) = 10%nat))
  /\ (forall d e,
        Env.db env = Some d -> Handle.list_collection_names d = inl e ->
        Report.collections r = []
        /\ exists shown rest,
             Report.database r = String.append "⚠️  Connected but Error: " shown
             /\ e = String.append shown rest
             /\ (count_chars shown <= 50)%nat).
Proof.
  cbv zeta.
  change (Report.collections (test_database env))
    with (Report.collections (probe (Env.db env))).
  change (Report.database (test_database env))
    with (Report.database (probe (Env.db env))).
  change (Report.connection_status (test_database env))
    with (Report.connection_status (probe (Env.db env))).
  rewrite probe_collections, probe_connection_status.
  split; [|split; [|split; [|split; [|split; [|split]]]]].
  - intros h. split; [reflexivity|]. split; [reflexivity|].
    unfold test_database. cbn [Report.backend Env.db].
    now destruct h as [[n [e|l]]|], (Env.db env) as [[n' [e'|l']]|].
  - unfold test_database. cbn [Report.database_url].
    destruct (truthy (Env.DATABASE_URL env)); split;
      (reflexivity || discriminate).
  - unfold test_database. cbn [Report.database_name].
    destruct (truthy (Env.DATABASE_NAME env)); split;
      (reflexivity || discriminate).
  - destruct (Env.db env) as [d|]; split;
      (reflexivity || discriminate || (intros H; now contradiction H)).
  - destruct (Env.db env) as [d|]; [|cbn; lia].
    destruct (Handle.list_collection_names d) as [e|l]; [cbn; lia|].
    rewrite length_firstn. lia.
  - intros d names Hd Hl. rewrite Hd, Hl.
    exists (skipn 10 names). split.
    + symmetry. apply firstn_skipn.
    + intros Hrest. rewrite length_firstn.
      destruct (Nat.le_gt_cases 10 (List.length names)) as [Hle|Hlt]; [lia|].
      rewrite skipn_all2 in Hrest by lia. now contradiction Hrest.
  - intros d e Hd He. rewrite Hd, He. split; [reflexivity|].
    destruct (take_chars_prefix 50 e) as [rest E].
    exists (first50 e), rest. split; [now apply probe_database_error|].
    split; [exact E|]. apply count_chars_take_chars.
Qed.

Example test_database_listing_fails :
  test_database
    (Env.mk (Some (Handle.mk (Some "shop") (inl "é: no route to host")))
       (Some "mongodb://localhost") (Some EmptyString))
  = Report.mk "✅ Running" "⚠️  Connected but Error: é: no route to host"
      (Some "✅ Set") (Some "❌ Not Set") "Connected" [].
Proof. reflexivity. Qed.

Example first50_counts_characters :
  count_chars "ééé" = 3%nat /\ take_chars 2 "ééé" = "éé" /\ String.length "éé" = 4%nat.
Proof. repeat split. Qed.
